(** * Career advisor: skill extraction, resume analysis, course lookup and
      career-path recommendation ([app.py]).

    The Python functions [extract_skills], [analyze_resume], [find_courses]
    and [career_path] are embedded as Rocq functions over an explicit role
    catalog (the value of [get_career_data()['career_roles']]); so are the
    request handlers [upload_resume] and [chat] with its helpers, and the
    demand table of [trending_skills]. [load_career_data] and the cached
    [get_career_data] are embedded over JSON values and an explicit state of
    the data file and of the global [career_data].

    Conventions of the embedding:
    - a Python [str] is a [string]; a character is a code point below 256
      (Latin-1), for which [str.lower], the regular expression class [\w] and
      [re.IGNORECASE] are character-wise and are written out below;
    - a Python [set] of strings is a [gset string]; where the code turns a set
      into a list ([list(found_skills)]) the order is that of [elements];
    - the float arithmetic of the match percentage is IEEE binary64, taken
      from the Standard Library's [SpecFloat];
    - the float [match_score] of a recommendation is a rational ([Q]): it is
      always an integer or an integer plus one half, which binary64
      represents exactly. *)

From Stdlib Require Import ZArith QArith Ascii String List Sorted Permutation.
From Stdlib Require Import Floats.SpecFloat DecimalString.
From stdpp Require Import base decidable list gmap sets strings sorting.

Local Open Scope string_scope.
Local Open Scope list_scope.

(** ** Characters and strings *)

Module Chars.

Definition code (c : ascii) : N := N_of_ascii c.

Definition in_range (lo hi : N) (c : ascii) : bool :=
  (lo <=? code c)%N && (code c <=? hi)%N.

(** Characters that [str.lower] changes: A-Z and the Latin-1 capitals. *)
Definition is_upper (c : ascii) : bool :=
  in_range 65 90 c || in_range 192 214 c || in_range 216 222 c.

(** [chr(ord(c) + 32)] for the characters above, [c] otherwise. *)
Definition lower_char (c : ascii) : ascii :=
  if is_upper c then ascii_of_N (code c + 32) else c.

(** The class [\w] of [re] on [str] patterns: alphanumeric or underscore. *)
Definition is_word_char (c : ascii) : bool :=
  in_range 48 57 c || in_range 65 90 c || in_range 95 95 c
  || in_range 97 122 c || in_range 170 170 c || in_range 178 179 c
  || in_range 181 181 c || in_range 185 186 c || in_range 188 190 c
  || in_range 192 214 c || in_range 216 246 c || in_range 248 255 c.

Definition chars (s : string) : list ascii := list_ascii_of_string s.

(** [s.lower()] *)
Definition lower (s : string) : string :=
  string_of_list_ascii (map lower_char (chars s)).

(** [a.lower() == b.lower()], character by character. *)
Definition char_eq_ci (a b : ascii) : bool :=
  Ascii.eqb (lower_char a) (lower_char b).

(** [sub] is a prefix of [l]. *)
Fixpoint starts_with (sub l : list ascii) : bool :=
  match sub, l with
  | [], _ => true
  | _ :: _, [] => false
  | a :: sub', b :: l' => Ascii.eqb a b && starts_with sub' l'
  end.

(** [sub in l] on strings: [sub] occurs in [l] at some position. *)
Fixpoint contains (sub l : list ascii) : bool :=
  starts_with sub l ||
  match l with
  | [] => false
  | _ :: l' => contains sub l'
  end.

(** [s.split(sep)] for a non-empty separator: the pieces between the
    non-overlapping occurrences of [sep], found from left to right.
    [skip] counts the characters of a separator still to be passed,
    [cur] is the piece being read, last character first. *)
Fixpoint split_go (sep : list ascii) (skip : nat) (cur s : list ascii)
  : list (list ascii) :=
  match s with
  | [] => [rev cur]
  | c :: s' =>
      match skip with
      | S k => split_go sep k cur s'
      | O =>
          if starts_with sep s
          then rev cur :: split_go sep (length sep - 1) [] s'
          else split_go sep 0 (c :: cur) s'
      end
  end.

Definition split (sep s : string) : list string :=
  map string_of_list_ascii (split_go (chars sep) 0 [] (chars s)).

End Chars.

(** ** The pattern [r'\b' + re.escape(skill) + r'\b'] under [re.IGNORECASE] *)

Module Regex.
Import Chars.

(** Is the character at the head of the remaining input a word character?
    Beyond the end of the input there is none. *)
Definition next_is_word (rest : list ascii) : bool :=
  match rest with
  | [] => false
  | c :: _ => is_word_char c
  end.

(** [\b]: exactly one of the character before the position and the
    character after it is a word character. *)
Definition at_boundary (prev_word : bool) (rest : list ascii) : bool :=
  xorb prev_word (next_is_word rest).

(** The escaped skill, read literally and without regard to case, followed
    by the closing [\b]. [prev_word] tells whether the character just
    passed is a word character. *)
Fixpoint match_literal (prev_word : bool) (pat rest : list ascii) : bool :=
  match pat with
  | [] => at_boundary prev_word rest
  | p :: pat' =>
      match rest with
      | [] => false
      | c :: rest' =>
          char_eq_ci p c && match_literal (is_word_char c) pat' rest'
      end
  end.

(** The whole pattern tried at one position. *)
Definition match_here (prev_word : bool) (pat rest : list ascii) : bool :=
  at_boundary prev_word rest && match_literal prev_word pat rest.

(** [re.search]: the pattern tried at every position, left to right. *)
Fixpoint search_go (prev_word : bool) (pat rest : list ascii) : bool :=
  match_here prev_word pat rest ||
  match rest with
  | [] => false
  | c :: rest' => search_go (is_word_char c) pat rest'
  end.

(** [re.search(r'\b' + re.escape(skill) + r'\b', text, re.IGNORECASE)]
    finds a match. *)
Definition search_word (skill text : string) : bool :=
  search_go false (chars skill) (chars text).

End Regex.

(** Occurrences of a skill in a text, stated on the text itself. *)
Module WholeWord.
Import Chars.

Definition last_is_word (before : list ascii) : bool :=
  match last before with
  | None => false
  | Some c => is_word_char c
  end.

Definition word_boundary (before after : list ascii) : Prop :=
  last_is_word before <> Regex.next_is_word after.

Definition eq_ignoring_case (a b : list ascii) : Prop :=
  map lower_char a = map lower_char b.

(** The pattern of [extract_skills] read off the text: the text splits into
    [pre ++ mid ++ post] where [mid] is the skill up to case and the anchor
    [\b] holds on both sides of [mid]. This is the meaning of the pattern,
    used to reason about the search; it is not the whole-word match of the
    specification, which is [delimited] below. *)
Definition anchored (skill text : string) : Prop :=
  exists pre mid post : list ascii,
    chars text = pre ++ mid ++ post
    /\ eq_ignoring_case mid (chars skill)
    /\ word_boundary pre (mid ++ post)
    /\ word_boundary (pre ++ mid) post.

(** [skill] occurs in [text] up to case. *)
Definition occurs_ignoring_case (skill text : string) : Prop :=
  exists pre mid post : list ascii,
    chars text = pre ++ mid ++ post /\ eq_ignoring_case mid (chars skill).

(** The whole-word match of the specification: [skill] occurs in [text] up
    to case as a word of its own, with no word character right before the
    occurrence and none right after it. *)
Definition delimited (skill text : string) : Prop :=
  exists pre mid post : list ascii,
    chars text = pre ++ mid ++ post
    /\ eq_ignoring_case mid (chars skill)
    /\ last_is_word pre = false
    /\ Regex.next_is_word post = false.

(** A skill that begins and ends with a word character. *)
Definition word_ended (skill : string) : Prop :=
  Regex.next_is_word (chars skill) = true
  /\ last_is_word (chars skill) = true.

(** [delimited], decided by a scan of the text. *)
Fixpoint literal_then_gap (pat rest : list ascii) : bool :=
  match pat with
  | [] => negb (Regex.next_is_word rest)
  | p :: pat' =>
      match rest with
      | [] => false
      | c :: rest' => char_eq_ci p c && literal_then_gap pat' rest'
      end
  end.

Fixpoint delimited_from (prev_word : bool) (pat rest : list ascii) : bool :=
  (negb prev_word && literal_then_gap pat rest) ||
  match rest with
  | [] => false
  | c :: rest' => delimited_from (is_word_char c) pat rest'
  end.

Definition delimited_b (skill text : string) : bool :=
  delimited_from false (chars skill) (chars text).

(** Characters and strings of the ASCII range. *)
Definition is_ascii_char (c : ascii) : bool := (code c <? 128)%N.

Definition ascii_text (s : string) : bool := forallb is_ascii_char (chars s).

End WholeWord.

(** ** IEEE binary64, for [int((len(matched_skills) / total_skills) * 100)] *)

Module Float64.

Definition prec : Z := 53.
Definition emax : Z := 1024.

(** [float(n)] for an [int]. *)
Definition of_int (n : Z) : spec_float := binary_normalize prec emax n 0 false.

Definition div : spec_float -> spec_float -> spec_float := SFdiv prec emax.
Definition mul : spec_float -> spec_float -> spec_float := SFmul prec emax.

(** [int(x)]: truncation toward zero. [int] raises on an infinity and on a
    NaN, which the quotient of two list lengths times one hundred is not;
    they are given 0 here. *)
Definition to_int (x : spec_float) : Z :=
  match x with
  | S754_zero _ => 0
  | S754_finite s m e =>
      let a := if (0 <=? e)%Z then (Zpos m * 2 ^ e)%Z
               else (Zpos m / 2 ^ (- e))%Z in
      if s then (- a)%Z else a
  | S754_infinity _ | S754_nan => 0
  end.

End Float64.

(** ** The role catalog *)

Record Course := {
  title : string;
  platform : string;
  duration : string;
  rating : Q
}.

Record GrowthTrend := {
  years : list Z;
  (** a missing [demand_index] key reads as the empty list: both are falsy *)
  demand_index : list Z
}.

Record Role := {
  role : string;
  category : string;
  required_skills : list string;
  preferred_skills : list string;
  average_salary : gmap string Z;
  growth_trend : GrowthTrend;
  recommended_courses : list Course;
  (** [None]: the key is absent and [.get] supplies ['Entry to Senior'] *)
  experience_level : option string;
  career_paths : list string
}.

(** The two roles of [create_default_career_data()]. *)
Definition software_engineer : Role :=
  {| role := "Software Engineer";
     category := "Technology";
     required_skills := ["Python"; "JavaScript"; "Git"; "SQL"];
     preferred_skills := ["React"; "Node.js"; "Docker"; "AWS"];
     average_salary :=
       {[ "entry" := 75000%Z; "mid" := 110000%Z;
          "senior" := 150000%Z; "lead" := 200000%Z ]};
     growth_trend :=
       {| years := [2020; 2021; 2022; 2023; 2024]%Z;
          demand_index := [85; 90; 95; 100; 105]%Z |};
     recommended_courses :=
       [ {| title := "Complete Python Bootcamp"; platform := "Udemy";
            duration := "40 hours"; rating := 46 # 10 |} ];
     experience_level := Some "Entry to Senior";
     career_paths := ["Senior Engineer"; "Tech Lead"; "Engineering Manager"] |}.

Definition data_scientist : Role :=
  {| role := "Data Scientist";
     category := "Data & Analytics";
     required_skills := ["Python"; "Statistics"; "Machine Learning"; "SQL"];
     preferred_skills := ["R"; "TensorFlow"; "Tableau"; "AWS"];
     average_salary :=
       {[ "entry" := 80000%Z; "mid" := 120000%Z;
          "senior" := 160000%Z; "lead" := 220000%Z ]};
     growth_trend :=
       {| years := [2020; 2021; 2022; 2023; 2024]%Z;
          demand_index := [80; 85; 92; 98; 103]%Z |};
     recommended_courses :=
       [ {| title := "Data Science Specialization"; platform := "Coursera";
            duration := "60 hours"; rating := 45 # 10 |} ];
     experience_level := Some "Entry to Senior";
     career_paths :=
       ["Senior Data Scientist"; "ML Engineer"; "Data Science Manager"] |}.

(** [create_default_career_data()['career_roles']] *)
Definition default_career_roles : list Role :=
  [software_engineer; data_scientist].

(** ** [extract_skills] *)

(** The vocabulary: every required and preferred skill of every role. *)
Definition all_skills (data : list Role) : gset string :=
  foldl (fun acc r =>
           acc ∪ list_to_set (required_skills r)
               ∪ list_to_set (preferred_skills r))
        ∅ data.

(** The second loop of [extract_skills], over a given vocabulary. *)
Definition found_skills (text : string) (vocabulary : gset string) : gset string :=
  filter (fun s => Regex.search_word s text = true) vocabulary.

Definition extract_skills (data : list Role) (text : string) : list string :=
  elements (found_skills text (all_skills data)).

(** ** [find_courses] *)

(** [skill.lower() in course.get('title', '').lower()] *)
Definition title_matches (skill : string) (c : Course) : bool :=
  Chars.contains (Chars.chars (Chars.lower skill))
                 (Chars.chars (Chars.lower (title c))).

(** The two nested loops: every matching course of every role, in the order
    the loops meet them. *)
Fixpoint matching_courses (data : list Role) (skill : string) : list Course :=
  match data with
  | [] => []
  | r :: data' =>
      filter (fun c => title_matches skill c = true) (recommended_courses r)
      ++ matching_courses data' skill
  end.

Definition find_courses (data : list Role) (skill : string) : list Course :=
  take 3 (matching_courses data skill).

(** ** [analyze_resume] *)

Inductive Priority := High | Medium.

Record PlanEntry := {
  skill : string;
  priority : Priority;
  resources : list Course
}.

Record Analysis := {
  analysis_role : string;
  match_percentage : Z;
  matched_skills : list string;
  missing_required : list string;
  missing_preferred : list string;
  improvement_plan : list PlanEntry;
  salary_range : gmap string Z;
  analysis_career_paths : list string
}.

(** The two responses of [analyze_resume]: the analysis, or the 404 body with
    the error message's role name and [available_roles]. *)
Inductive Response :=
| Ok (a : Analysis)
| RoleNotFound (target_role : string) (available_roles : list string).

(** The lookup loop: the first role whose lowered name is the lowered
    target. *)
Fixpoint lookup_role (data : list Role) (target_role : string) : option Role :=
  match data with
  | [] => None
  | r :: data' =>
      if decide (Chars.lower (role r) = Chars.lower target_role)
      then Some r
      else lookup_role data' target_role
  end.

(** [int((matched / total) * 100) if total else 0] *)
Definition percentage (matched total : nat) : Z :=
  if decide (total = 0) then 0%Z
  else Float64.to_int
         (Float64.mul
            (Float64.div (Float64.of_int (Z.of_nat matched))
                         (Float64.of_int (Z.of_nat total)))
            (Float64.of_int 100)).

Definition plan_entries (data : list Role) (p : Priority) (skills : list string)
  : list PlanEntry :=
  map (fun s => {| skill := s; priority := p; resources := find_courses data s |})
      skills.

Definition analyze_role (data : list Role) (resume_skills : list string)
    (role_data : Role) : Analysis :=
  let required := required_skills role_data in
  let preferred := preferred_skills role_data in
  let missing_req := filter (fun s => s ∉ resume_skills) required in
  let missing_pref := filter (fun s => s ∉ resume_skills) preferred in
  let matched := filter (fun s => s ∈ resume_skills) (required ++ preferred) in
  let total_skills := length required + length preferred in
  {| analysis_role := role role_data;
     match_percentage := percentage (length matched) total_skills;
     matched_skills := matched;
     missing_required := missing_req;
     missing_preferred := missing_pref;
     improvement_plan :=
       plan_entries data High (take 3 missing_req)
       ++ plan_entries data Medium (take 2 missing_pref);
     salary_range := average_salary role_data;
     analysis_career_paths := career_paths role_data |}.

Definition analyze_resume (data : list Role) (resume_skills : list string)
    (target_role : string) : Response :=
  match lookup_role data target_role with
  | None => RoleNotFound target_role (map role data)
  | Some role_data => Ok (analyze_role data resume_skills role_data)
  end.

(** ** [career_path] *)

Definition level_order : list string := ["Entry"; "Mid"; "Senior"; "Lead"].

(** [l.index(x)]; [None] stands for the [ValueError] of an absent [x]. *)
Fixpoint index (x : string) (l : list string) : option nat :=
  match l with
  | [] => None
  | y :: l' => if decide (y = x) then Some 0 else S <$> index x l'
  end.

(** [role.get('experience_level', 'Entry to Senior').split(' to ')] *)
Definition role_levels (r : Role) : list string :=
  Chars.split " to " (default "Entry to Senior" (experience_level r)).

(** [role_levels[0]]; [split] never returns the empty list. *)
Definition min_level (r : Role) : string := hd "" (role_levels r).

(** [role_levels[-1] if len(role_levels) > 1 else min_level] *)
Definition max_level (r : Role) : string :=
  if decide (1 < length (role_levels r))%nat
  then List.last (role_levels r) ""
  else min_level r.

(** The experience filter: [true] when the loop takes [continue]. The
    operands are evaluated left to right and [or] stops at the first true
    one; a [ValueError] from any [index] evaluated leaves the [try] and the
    role is kept. *)
Definition experience_excludes (experience : string) (r : Role) : bool :=
  match index experience level_order with
  | None => false
  | Some e =>
      match index (min_level r) level_order with
      | None => false
      | Some lo =>
          if (e <? lo)%nat then true
          else match index (max_level r) level_order with
               | None => false
               | Some hi => (hi <? e)%nat
               end
      end
  end.

Record Recommendation := {
  rec_role : string;
  rec_category : string;
  match_score : Q;
  salary : gmap string Z;
  growth : Z;
  missing_skills : gset string;
  rec_courses : list Course
}.

(** [len(matched) + 0.5 * len(preferred.intersection(resume_skills))] *)
Definition score (resume_skills : list string) (r : Role) : Q :=
  let required : gset string := list_to_set (required_skills r) in
  let preferred : gset string := list_to_set (preferred_skills r) in
  let matched := required ∩ list_to_set resume_skills in
  inject_Z (Z.of_nat (size matched))
  + (1 # 2) * inject_Z (Z.of_nat (size (preferred ∩ list_to_set resume_skills))).

(** The last demand index, or 100 when there is none. *)
Definition current_growth (r : Role) : Z :=
  match last (demand_index (growth_trend r)) with
  | Some g => g
  | None => 100
  end.

Definition recommendation (resume_skills : list string) (r : Role)
  : Recommendation :=
  {| rec_role := role r;
     rec_category := category r;
     match_score := score resume_skills r;
     salary := average_salary r;
     growth := current_growth r;
     missing_skills :=
       list_to_set (required_skills r) ∖ list_to_set resume_skills;
     rec_courses := recommended_courses r |}.

Definition Qlt_bool (a b : Q) : bool :=
  match (a ?= b)%Q with
  | Lt => true
  | _ => false
  end.

(** One turn of the loop over the roles. *)
Definition consider (resume_skills : list string) (experience : string)
    (r : Role) : option Recommendation :=
  if experience_excludes experience r then None
  else if Qlt_bool 0 (score resume_skills r)
       then Some (recommendation resume_skills r)
       else None.

Definition recommended_roles (data : list Role) (resume_skills : list string)
    (experience : string) : list Recommendation :=
  omap (consider resume_skills experience) data.

(** The sort key [(x['match_score'], x['growth'])] and the comparison of two
    such tuples: the first components decide unless they are equal. *)
Definition sort_key (x : Recommendation) : Q * Z := (match_score x, growth x).

Definition key_lt (a b : Q * Z) : bool :=
  match (fst a ?= fst b)%Q with
  | Lt => true
  | Eq => (snd a <? snd b)%Z
  | Gt => false
  end.

(** [list.sort(key=..., reverse=True)] is a stable sort: entries with equal
    keys keep their order. The stable sort of a list is unique; it is
    computed here by insertion. *)
Fixpoint insert_desc (x : Recommendation) (l : list Recommendation)
  : list Recommendation :=
  match l with
  | [] => [x]
  | y :: l' =>
      if key_lt (sort_key x) (sort_key y)
      then y :: insert_desc x l'
      else x :: l
  end.

Fixpoint sort_desc (l : list Recommendation) : list Recommendation :=
  match l with
  | [] => []
  | x :: l' => insert_desc x (sort_desc l')
  end.

Definition career_path (data : list Role) (resume_skills : list string)
    (experience : string) : list Recommendation :=
  take 5 (sort_desc (recommended_roles data resume_skills experience)).

(** ** [trending_skills]: the demand behind the bar chart *)

(** [skill_demand[skill] += current_demand] on a [defaultdict(int)]; the
    dictionary keeps its keys in the order of their first insertion. *)
Fixpoint add_demand (skill : string) (current_demand : Z)
    (skill_demand : list (string * Z)) : list (string * Z) :=
  match skill_demand with
  | [] => [(skill, current_demand)]
  | (k, v) :: rest =>
      if decide (k = skill) then (k, (v + current_demand)%Z) :: rest
      else (k, v) :: add_demand skill current_demand rest
  end.

(** The inner loop, over the required then the preferred skills of a role. *)
Definition add_role_demand (skill_demand : list (string * Z)) (r : Role)
  : list (string * Z) :=
  foldl (fun d s => add_demand s (current_growth r) d) skill_demand
        (required_skills r ++ preferred_skills r).

Definition skill_demand (data : list Role) : list (string * Z) :=
  foldl add_role_demand [] data.

(** [sorted(items, key=lambda x: x[1], reverse=True)], a stable sort. *)
Fixpoint insert_by_demand (x : string * Z) (l : list (string * Z))
  : list (string * Z) :=
  match l with
  | [] => [x]
  | y :: l' =>
      if (snd x <? snd y)%Z then y :: insert_by_demand x l' else x :: l
  end.

Fixpoint sort_by_demand (l : list (string * Z)) : list (string * Z) :=
  match l with
  | [] => []
  | x :: l' => insert_by_demand x (sort_by_demand l')
  end.

(** [None] is the 404 answer 'No skills data available'; otherwise the
    (skill, demand) pairs handed to the bar chart. *)
Definition sorted_skills (data : list Role) : option (list (string * Z)) :=
  match skill_demand data with
  | [] => None
  | d => Some (take 20 (sort_by_demand d))
  end.

(** ** [load_career_data], [get_career_data], [reload_career_data] *)

(** What [json.load] returns. *)
#[warnings="-register-all"]
Inductive json :=
| JNull
| JBool (b : bool)
| JNum (n : Q)
| JStr (s : string)
| JArr (l : list json)
| JObj (d : gmap string json).

Definition course_json (t p d : string) (r : Q) : json :=
  JObj {[ "title" := JStr t; "platform" := JStr p;
          "duration" := JStr d; "rating" := JNum r ]}.

Definition salary_json (entry mid senior lead : Z) : json :=
  JObj {[ "entry" := JNum (inject_Z entry); "mid" := JNum (inject_Z mid);
          "senior" := JNum (inject_Z senior); "lead" := JNum (inject_Z lead) ]}.

Definition growth_json (ys ds : list Z) : json :=
  JObj {[ "years" := JArr (map (fun y => JNum (inject_Z y)) ys);
          "demand_index" := JArr (map (fun d => JNum (inject_Z d)) ds) ]}.

(** [create_default_career_data()] *)
Definition create_default_career_data : json :=
  JObj {[ "career_roles" :=
    JArr [
      JObj {[ "role" := JStr "Software Engineer";
              "category" := JStr "Technology";
              "required_skills" :=
                JArr [JStr "Python"; JStr "JavaScript"; JStr "Git"; JStr "SQL"];
              "preferred_skills" :=
                JArr [JStr "React"; JStr "Node.js"; JStr "Docker"; JStr "AWS"];
              "average_salary" := salary_json 75000 110000 150000 200000;
              "growth_trend" :=
                growth_json [2020; 2021; 2022; 2023; 2024]%Z
                            [85; 90; 95; 100; 105]%Z;
              "recommended_courses" :=
                JArr [course_json "Complete Python Bootcamp" "Udemy"
                                  "40 hours" (46 # 10)];
              "job_outlook" := JStr "Excellent";
              "remote_friendly" := JBool true;
              "experience_level" := JStr "Entry to Senior";
              "top_companies" :=
                JArr [JStr "Google"; JStr "Microsoft"; JStr "Amazon"];
              "career_paths" :=
                JArr [JStr "Senior Engineer"; JStr "Tech Lead";
                      JStr "Engineering Manager"] ]};
      JObj {[ "role" := JStr "Data Scientist";
              "category" := JStr "Data & Analytics";
              "required_skills" :=
                JArr [JStr "Python"; JStr "Statistics";
                      JStr "Machine Learning"; JStr "SQL"];
              "preferred_skills" :=
                JArr [JStr "R"; JStr "TensorFlow"; JStr "Tableau"; JStr "AWS"];
              "average_salary" := salary_json 80000 120000 160000 220000;
              "growth_trend" :=
                growth_json [2020; 2021; 2022; 2023; 2024]%Z
                            [80; 85; 92; 98; 103]%Z;
              "recommended_courses" :=
                JArr [course_json "Data Science Specialization" "Coursera"
                                  "60 hours" (45 # 10)];
              "job_outlook" := JStr "Very Good";
              "remote_friendly" := JBool true;
              "experience_level" := JStr "Entry to Senior";
              "top_companies" := JArr [JStr "Netflix"; JStr "Airbnb"; JStr "Uber"];
              "career_paths" :=
                JArr [JStr "Senior Data Scientist"; JStr "ML Engineer";
                      JStr "Data Science Manager"] ]} ] ]}.

Definition required_fields : list string :=
  ["role"; "category"; "required_skills"; "preferred_skills";
   "average_salary"; "growth_trend"; "recommended_courses"].

(** [[field for field in required_fields if field not in role]] *)
Definition missing_fields (role : gmap string json) : list string :=
  filter (fun field => role !! field = None) required_fields.

(** A role the validation loop appends to [valid_roles]: a dictionary with
    no required field missing. *)
Definition is_valid_role (role : json) : bool :=
  match role with
  | JObj d => match missing_fields d with [] => true | _ => false end
  | _ => false
  end.

(** The data file as [load_career_data] finds it: absent, not readable, not
    loadable ([open] or [json.load] raises), or holding a JSON value. *)
Inductive DataFile :=
| FileMissing
| FileUnreadable
| FileBroken
| FileHolds (data : json).

(** The checks on the loaded value, from [isinstance(data, dict)] on. *)
Definition validate_career_data (data : json) : json :=
  match data with
  | JObj d =>
      match d !! "career_roles" with
      | Some (JArr []) => create_default_career_data
      | Some (JArr roles) =>
          match List.filter is_valid_role roles with
          | [] => create_default_career_data
          | valid_roles => JObj (<["career_roles" := JArr valid_roles]> d)
          end
      | _ => create_default_career_data
      end
  | _ => create_default_career_data
  end.

Definition load_career_data (file : DataFile) : json :=
  match file with
  | FileMissing | FileUnreadable | FileBroken => create_default_career_data
  | FileHolds data => validate_career_data data
  end.

(** The global [career_data] is threaded through: [None] before the first
    load. Each function returns its result and the new value of the
    global. *)
Definition get_career_data (file : DataFile) (career_data : option json)
  : json * option json :=
  match career_data with
  | None => let d := load_career_data file in (d, Some d)
  | Some d => (d, Some d)
  end.

Definition reload_career_data (file : DataFile) (career_data : option json)
  : json * option json :=
  get_career_data file None.

(** ** [chat] and its helpers *)

(** [sep.join(l)] *)
Fixpoint join (sep : string) (l : list string) : string :=
  match l with
  | [] => ""
  | [x] => x
  | x :: l' => x +:+ sep +:+ join sep l'
  end.

(** The digits of [f"{n:,}"], last digit first, with a comma after every
    third digit that has a digit after it; [k] digits remain in the group. *)
Fixpoint commas_rev (k : nat) (rev_digits : list ascii) : list ascii :=
  match rev_digits with
  | [] => []
  | d :: ds =>
      match k with
      | O => ","%char :: d :: commas_rev 2 ds
      | S k' => d :: commas_rev k' ds
      end
  end.

(** [f"{n:,}"] for an [int]. *)
Definition format_thousands (n : Z) : string :=
  let digits :=
    list_ascii_of_string (NilZero.string_of_uint (N.to_uint (Z.abs_N n))) in
  let grouped := string_of_list_ascii (rev (commas_rev 3 (rev digits))) in
  if (n <? 0)%Z then "-" +:+ grouped else grouped.

(** [word in message.lower()] *)
Definition mentions (word message : string) : bool :=
  Chars.contains (Chars.chars word) (Chars.chars (Chars.lower message)).

(** The first role name, in catalog order, whose lowered form occurs in the
    lowered message. *)
Fixpoint extract_role_from_message (data : list Role) (message : string)
  : option string :=
  match data with
  | [] => None
  | r :: data' =>
      if mentions (Chars.lower (role r)) message then Some (role r)
      else extract_role_from_message data' message
  end.

(** The loop over the set [all_skills], in the order of [elements]. *)
Definition extract_skill_from_message (data : list Role) (message : string)
  : option string :=
  List.find (fun s => mentions (Chars.lower s) message)
            (elements (all_skills data)).

Definition default_reply : string :=
  "I can help with career advice. Ask about skills, roles, or resume tips.".
Definition greeting_reply : string :=
  "Hello! How can I assist with your career development today?".
Definition general_skills_reply : string :=
  "I recommend learning Python, SQL, and cloud technologies which are valuable across many roles.".
Definition general_salary_reply : string :=
  "Salaries vary by role and experience. Software engineers average $110K at mid-level.".
Definition general_courses_reply : string :=
  "I recommend: Coursera's Machine Learning, Udemy's Web Development Bootcamp, or edX's Data Science courses.".

(** The branch taken for a message about skills; [current_role] is
    [context.get('current_role', '')]. *)
Definition skills_reply (data : list Role) (current_role : string) : string :=
  if decide (current_role = "") then general_skills_reply
  else match lookup_role data current_role with
       | Some role_data =>
           "For " +:+ current_role +:+ ", focus on: "
           +:+ join ", " (take 5 (required_skills role_data
                                  ++ preferred_skills role_data))
           +:+ "..."
       | None => general_skills_reply
       end.

(** [salary.get(level, 0)] *)
Definition salary_at (salary : gmap string Z) (level : string) : Z :=
  default 0%Z (salary !! level).

Definition salaries_reply (role_name : string) (salary : gmap string Z)
  : string :=
  role_name +:+ " salaries: Entry $" +:+ format_thousands (salary_at salary "entry")
  +:+ ", Mid $" +:+ format_thousands (salary_at salary "mid")
  +:+ ", Senior $" +:+ format_thousands (salary_at salary "senior").

Definition salary_reply (data : list Role) (message : string) : string :=
  match extract_role_from_message data message with
  | Some role_name =>
      if decide (role_name = "") then general_salary_reply
      else match lookup_role data role_name with
           | Some role_data => salaries_reply role_name (average_salary role_data)
           | None => general_salary_reply
           end
  | None => general_salary_reply
  end.

Definition course_line (c : Course) : string :=
  "- " +:+ title c +:+ " (" +:+ platform c +:+ ")".

(** The line feed of ["\n"]. *)
Definition newline : string := String (ascii_of_nat 10) "".

Definition courses_reply (data : list Role) (message : string) : string :=
  match extract_skill_from_message data message with
  | Some s =>
      if decide (s = "") then general_courses_reply
      else match find_courses data s with
           | [] => "Check Coursera, Udemy, or edX for courses on " +:+ s +:+ "."
           | courses =>
               "Top courses for " +:+ s +:+ ":" +:+ newline
               +:+ join newline (map course_line courses)
           end
  | None => general_courses_reply
  end.

Definition chat (data : list Role) (message current_role : string) : string :=
  if mentions "hello" message then greeting_reply
  else if mentions "skill" message || mentions "learn" message
       then skills_reply data current_role
  else if mentions "salary" message then salary_reply data message
  else if mentions "course" message || mentions "learn" message
       then courses_reply data message
  else default_reply.

(** ** [upload_resume] *)

(** The characters [str.strip] removes. *)
Definition is_space (c : ascii) : bool :=
  Chars.in_range 9 13 c || Chars.in_range 28 32 c
  || Chars.in_range 133 133 c || Chars.in_range 160 160 c.

Fixpoint lstrip (l : list ascii) : list ascii :=
  match l with
  | [] => []
  | c :: l' => if is_space c then lstrip l' else l
  end.

(** [s.strip()] *)
Definition strip (s : string) : string :=
  string_of_list_ascii (rev (lstrip (rev (lstrip (Chars.chars s))))).

(** [s.endswith(suffix)] *)
Definition endswith (suffix s : string) : bool :=
  Chars.starts_with (rev (Chars.chars suffix)) (rev (Chars.chars s)).

(** The uploaded file: its name, and what [pdfplumber] reads from it once
    saved, page by page ([None] for a page without text); [None] for the
    pages when saving or opening raises. *)
Record ResumeFile := {
  filename : string;
  pdf_pages : option (list (option string))
}.

Inductive UploadResponse :=
| BadRequest (error : string)
| ServerError (error : string)
| Analyzed (response : Response).

(** [text += page.extract_text() or ""] over the pages. *)
Definition resume_text (pages : list (option string)) : string :=
  foldl (fun text page => text +:+ default "" page) "" pages.

(** [resume] is [request.files.get('resume')], [target_role] is
    [request.form.get('target_role')]. *)
Definition upload_resume (data : list Role) (resume : option ResumeFile)
    (target_role : option string) : UploadResponse :=
  match resume with
  | None => BadRequest "No file uploaded"
  | Some file =>
      if decide (filename file = "") then BadRequest "No selected file"
      else
        let target := strip (default "" target_role) in
        if decide (target = "")
        then BadRequest "Target role must be selected before analysis"
        else if endswith ".pdf" (filename file)
        then match pdf_pages file with
             | None => ServerError "Failed to process resume"
             | Some pages =>
                 Analyzed (analyze_resume data
                             (extract_skills data (resume_text pages)) target)
             end
        else BadRequest "Invalid file format"
  end.

(** ** Notions used in the statements *)

(** The loop body once the filter is out of the way. *)
Definition consider_score (resume_skills : list string) (r : Role)
  : option Recommendation :=
  if Qlt_bool 0 (score resume_skills r)
  then Some (recommendation resume_skills r)
  else None.

(** [a] is not below [b] in the order of the keys (score, growth). *)
Definition key_ge (a b : Recommendation) : Prop :=
  (match_score b < match_score a)%Q
  \/ ((match_score b == match_score a)%Q /\ (growth b <= growth a)%Z).

(** The pairs [(matched, total)] with [matched <= total] and [total] in a
    range, for checks by evaluation. *)
Definition pairs_upto (lo len : nat) : list (nat * nat) :=
  flat_map (fun total => map (fun matched => (matched, total)) (seq 0 (S total)))
           (seq lo len).

(** Equality of two sort keys, the scores compared as numbers. *)
Definition key_eqb (a b : Q * Z) : bool :=
  Qeq_bool (fst a) (fst b) && (snd a =? snd b)%Z.

(** The demand a [defaultdict(int)] holds for a skill: 0 when the skill has
    no entry. *)
Fixpoint demand_in (skill_demand : list (string * Z)) (s : string) : Z :=
  match skill_demand with
  | [] => 0%Z
  | (k, v) :: rest => if decide (k = s) then v else demand_in rest s
  end.

(** The sum, over the roles, of the role's current demand times the number
    of times the role lists the skill among its required and preferred
    skills. *)
Fixpoint total_demand (data : list Role) (s : string) : Z :=
  match data with
  | [] => 0%Z
  | r :: data' =>
      (Z.of_nat (count_occ string_dec
                   (required_skills r ++ preferred_skills r) s)
       * current_growth r
       + total_demand data' s)%Z
  end.

(** What the rest of the program reads from the loaded data. *)
Definition usable_career_data (data : json) : Prop :=
  exists d roles,
    data = JObj d
    /\ d !! "career_roles" = Some (JArr roles)
    /\ roles <> []
    /\ Forall (fun r => is_valid_role r = true) roles.

(** Every required and preferred skill of the catalog is an ASCII string. *)
Definition ascii_skills (data : list Role) : bool :=
  forallb (fun r => forallb WholeWord.ascii_text
                      (required_skills r ++ preferred_skills r))
          data.

(** ** Catalogs used as concrete inputs *)

(** A role that lists one skill as required and again as preferred. *)
Definition backend_developer : Role :=
  {| role := "Backend Developer";
     category := "Technology";
     required_skills := ["Python"];
     preferred_skills := ["Python"];
     average_salary := ∅;
     growth_trend := {| years := []; demand_index := [] |};
     recommended_courses := [];
     experience_level := None;
     career_paths := [] |}.

(** A role whose skills end in characters that are not word characters. *)
Definition systems_programmer : Role :=
  {| role := "Systems Programmer";
     category := "Technology";
     required_skills := ["C++"];
     preferred_skills := ["C#"];
     average_salary := ∅;
     growth_trend := {| years := []; demand_index := [] |};
     recommended_courses := [];
     experience_level := None;
     career_paths := [] |}.

(** A role whose skill begins with a character that is not a word
    character. *)
Definition dotnet_developer : Role :=
  {| role := "Dotnet Developer";
     category := "Technology";
     required_skills := [".NET"];
     preferred_skills := [];
     average_salary := ∅;
     growth_trend := {| years := []; demand_index := [] |};
     recommended_courses := [];
     experience_level := None;
     career_paths := [] |}.

(** [n] distinct skill names: "x", "xx", "xxx", ... *)
Definition numbered_skills (n : nat) : list string :=
  map (fun i => string_of_list_ascii (replicate (S i) "x"%char)) (seq 0 n).

(** A role with fifty required skills and no preferred ones. *)
Definition polyglot : Role :=
  {| role := "Polyglot";
     category := "Technology";
     required_skills := numbered_skills 50;
     preferred_skills := [];
     average_salary := ∅;
     growth_trend := {| years := []; demand_index := [] |};
     recommended_courses := [];
     experience_level := None;
     career_paths := [] |}.

(** Two roles whose courses both mention Python; the first met has the lower
    rating. *)
Definition intro_course : Course :=
  {| title := "Python for Everybody"; platform := "Coursera";
     duration := "30 hours"; rating := 30 # 10 |}.

Definition advanced_course : Course :=
  {| title := "Advanced PYTHON Patterns"; platform := "Udemy";
     duration := "12 hours"; rating := 49 # 10 |}.

Definition analyst : Role :=
  {| role := "Analyst";
     category := "Data & Analytics";
     required_skills := ["SQL"];
     preferred_skills := [];
     average_salary := ∅;
     growth_trend := {| years := []; demand_index := [] |};
     recommended_courses := [intro_course];
     experience_level := Some "Mid to Lead";
     career_paths := [] |}.

Definition architect : Role :=
  {| role := "Architect";
     category := "Technology";
     required_skills := ["Python"];
     preferred_skills := [];
     average_salary := ∅;
     growth_trend := {| years := []; demand_index := [] |};
     recommended_courses := [advanced_course];
     experience_level := Some "Senior to Lead";
     career_paths := [] |}.

(** Roles whose experience range names a level outside the scale. *)
Definition trainee : Role :=
  {| role := "Trainee";
     category := "Technology";
     required_skills := ["Git"];
     preferred_skills := [];
     average_salary := ∅;
     growth_trend := {| years := []; demand_index := [] |};
     recommended_courses := [];
     experience_level := Some "Junior to Mid";
     career_paths := [] |}.

Definition principal : Role :=
  {| role := "Principal";
     category := "Technology";
     required_skills := ["Git"];
     preferred_skills := [];
     average_salary := ∅;
     growth_trend := {| years := []; demand_index := [] |};
     recommended_courses := [];
     experience_level := Some "Senior to Principal";
     career_paths := [] |}.

(** * Properties *)

Example lower_example : Chars.lower "Software Engineer" = "software engineer".
Proof. reflexivity. Qed.

Example split_example :
  Chars.split " to " "Entry to Senior" = ["Entry"; "Senior"]
  /\ Chars.split " to " "Lead" = ["Lead"]
  /\ Chars.split " to " " to to to " = [""; "to"; ""].
Proof. repeat split; reflexivity. Qed.

(** ** Resolution of the target role *)

Lemma lookup_role_Some data target rd :
  lookup_role data target = Some rd ->
  exists pre post,
    data = pre ++ rd :: post
    /\ Chars.lower (role rd) = Chars.lower target
    /\ forall r, r ∈ pre -> Chars.lower (role r) <> Chars.lower target.
Proof.
  induction data as [|r data IH]; simpl; [discriminate|].
  destruct (decide (Chars.lower (role r) = Chars.lower target)) as [Heq|Hne].
  - intros [= ->]. exists [], data. split; [reflexivity|]. split; [exact Heq|].
    intros r' Hr'. inversion Hr'.
  - intros H. destruct (IH H) as (pre & post & -> & Hrd & Hpre).
    exists (r :: pre), post. split; [reflexivity|]. split; [exact Hrd|].
    intros r' Hr'. apply elem_of_cons in Hr' as [->|Hr']; [exact Hne|auto].
Qed.

Lemma lookup_role_None data target :
  lookup_role data target = None <->
  forall r, r ∈ data -> Chars.lower (role r) <> Chars.lower target.
Proof.
  induction data as [|r data IH]; simpl.
  - split; [intros _ r Hr; inversion Hr | reflexivity].
  - destruct (decide (Chars.lower (role r) = Chars.lower target)) as [Heq|Hne].
    + split; [discriminate|]. intros H. exfalso. apply (H r); [left|exact Heq].
    + rewrite IH. split.
      * intros H r' Hr'. apply elem_of_cons in Hr' as [->|Hr']; auto.
      * intros H r' Hr'. apply H. right. exact Hr'.
Qed.

Lemma analyze_resume_found data resume_skills target rd :
  lookup_role data target = Some rd ->
  analyze_resume data resume_skills target
  = Ok (analyze_role data resume_skills rd).
Proof. intros H. unfold analyze_resume. rewrite H. reflexivity. Qed.

(** C7: the target name is resolved by comparing lowered names, the first
    catalog role that agrees is analysed, and when no role agrees the
    response is the not-found error carrying every role name of the catalog
    and no analysis; "software engineer" resolves to "Software Engineer". *)
Theorem analyze_resume_resolves_role data resume_skills target :
  ((exists pre rd post,
       data = pre ++ rd :: post
       /\ Chars.lower (role rd) = Chars.lower target
       /\ (forall r, r ∈ pre -> Chars.lower (role r) <> Chars.lower target)
       /\ analyze_resume data resume_skills target
          = Ok (analyze_role data resume_skills rd))
   \/ ((forall r, r ∈ data -> Chars.lower (role r) <> Chars.lower target)
       /\ analyze_resume data resume_skills target
          = RoleNotFound target (map role data)))
  /\ analyze_resume default_career_roles resume_skills "software engineer"
     = Ok (analyze_role default_career_roles resume_skills software_engineer)
  /\ analysis_role
       (analyze_role default_career_roles resume_skills software_engineer)
     = "Software Engineer".
Proof.
  split; [|split; reflexivity].
  destruct (lookup_role data target) as [rd|] eqn:Hl.
  - left. destruct (lookup_role_Some _ _ _ Hl) as (pre & post & Hd & Hrd & Hpre).
    exists pre, rd, post. repeat split; try assumption.
    apply analyze_resume_found. exact Hl.
  - right. split; [apply lookup_role_None; exact Hl|].
    unfold analyze_resume. rewrite Hl. reflexivity.
Qed.

(** ** Matched and missing skills *)

Section SkillLists.
Variable resume_skills : list string.

Lemma missing_disjoint (skills : list string) s :
  s ∈ filter (fun s => s ∉ resume_skills) skills -> s ∉ resume_skills.
Proof. intros H. apply list_elem_of_filter in H. tauto. Qed.

Lemma missing_elem (skills : list string) s :
  s ∈ filter (fun s => s ∉ resume_skills) skills
  <-> s ∈ skills /\ s ∉ resume_skills.
Proof. rewrite list_elem_of_filter. tauto. Qed.

Lemma matched_elem (required preferred : list string) s :
  s ∈ filter (fun s => s ∈ resume_skills) (required ++ preferred)
  <-> (s ∈ required \/ s ∈ preferred) /\ s ∈ resume_skills.
Proof. rewrite list_elem_of_filter, elem_of_app. tauto. Qed.
End SkillLists.

(** C5: the missing required (preferred) skills are the role's required
    (preferred) skills that are not among the extracted ones, in the role's
    order, and no missing required skill is an extracted skill. *)
Theorem missing_skills_are_role_minus_extracted
    data resume_skills target rd :
  lookup_role data target = Some rd ->
  exists a,
    analyze_resume data resume_skills target = Ok a
    /\ missing_required a
       = filter (fun s => s ∉ resume_skills) (required_skills rd)
    /\ missing_preferred a
       = filter (fun s => s ∉ resume_skills) (preferred_skills rd)
    /\ (forall s, s ∈ missing_required a
                  <-> s ∈ required_skills rd /\ s ∉ resume_skills)
    /\ (forall s, s ∈ missing_preferred a
                  <-> s ∈ preferred_skills rd /\ s ∉ resume_skills)
    /\ missing_required a `sublist_of` required_skills rd
    /\ missing_preferred a `sublist_of` preferred_skills rd
    /\ (forall s, s ∈ missing_required a -> s ∉ resume_skills).
Proof.
  intros Hl. exists (analyze_role data resume_skills rd).
  split; [apply analyze_resume_found; exact Hl|].
  cbn [analyze_role missing_required missing_preferred].
  split; [reflexivity|]. split; [reflexivity|].
  split; [intros s; apply missing_elem|].
  split; [intros s; apply missing_elem|].
  split; [apply sublist_filter|].
  split; [apply sublist_filter|].
  intros s. apply missing_disjoint.
Qed.

Lemma missing_skills_witness :
  exists a,
    analyze_resume default_career_roles ["Python"; "AWS"] "software engineer"
    = Ok a
    /\ missing_required a = ["JavaScript"; "Git"; "SQL"]
    /\ missing_preferred a = ["React"; "Node.js"; "Docker"].
Proof.
  destruct (missing_skills_are_role_minus_extracted
              default_career_roles ["Python"; "AWS"] "software engineer"
              software_engineer eq_refl)
    as (a & Ha & Hr & Hp & _).
  exists a. split; [exact Ha|]. split; [exact Hr | exact Hp].
Defined.

(** C2, as the code has it: the matched skills are the entries of the
    required skills followed by the preferred skills that are among the
    extracted ones, in that order; an entry is kept as often as it occurs, so
    the list is free of duplicates when the concatenation is. *)
Theorem matched_skills_are_role_inter_extracted
    data resume_skills target rd :
  lookup_role data target = Some rd ->
  exists a,
    analyze_resume data resume_skills target = Ok a
    /\ matched_skills a
       = filter (fun s => s ∈ resume_skills)
                (required_skills rd ++ preferred_skills rd)
    /\ (forall s, s ∈ matched_skills a
                  <-> (s ∈ required_skills rd \/ s ∈ preferred_skills rd)
                      /\ s ∈ resume_skills)
    /\ matched_skills a `sublist_of` (required_skills rd ++ preferred_skills rd)
    /\ (NoDup (required_skills rd ++ preferred_skills rd)
        -> NoDup (matched_skills a)).
Proof.
  intros Hl. exists (analyze_role data resume_skills rd).
  split; [apply analyze_resume_found; exact Hl|].
  cbn [analyze_role matched_skills].
  split; [reflexivity|].
  split; [intros s; apply matched_elem|].
  split; [apply sublist_filter|].
  apply NoDup_filter.
Qed.

Lemma matched_skills_witness :
  exists a,
    analyze_resume default_career_roles ["AWS"; "Python"] "Software Engineer"
    = Ok a
    /\ matched_skills a = ["Python"; "AWS"].
Proof.
  destruct (matched_skills_are_role_inter_extracted
              default_career_roles ["AWS"; "Python"] "Software Engineer"
              software_engineer eq_refl)
    as (a & Ha & Hm & _).
  exists a. split; [exact Ha | exact Hm].
Defined.

(** C2 as stated fails: a skill that is both required and preferred is
    listed twice. *)
Lemma matched_skills_not_deduplicated :
  exists a,
    analyze_resume [backend_developer] ["Python"] "Backend Developer" = Ok a
    /\ matched_skills a = ["Python"; "Python"]
    /\ ~ NoDup (matched_skills a).
Proof.
  eexists. split; [reflexivity|]. split; [reflexivity|].
  cbn. intros H. apply NoDup_cons in H as [H _]. apply H. left.
Qed.

(** ** The improvement plan *)

Lemma length_plan_entries data p skills :
  length (plan_entries data p skills) = length skills.
Proof. unfold plan_entries. apply length_map. Qed.

Lemma find_courses_length data s : length (find_courses data s) <= 3.
Proof. unfold find_courses. rewrite length_take. lia. Qed.

Lemma plan_entries_resources data p skills :
  Forall (fun e => length (resources e) <= 3) (plan_entries data p skills).
Proof.
  induction skills as [|s skills IH]; constructor.
  - cbn. apply find_courses_length.
  - exact IH.
Qed.

Lemma filter_not_in_nil (skills : list string) :
  filter (fun s => s ∉ @nil string) skills = skills.
Proof.
  induction skills as [|s skills IH]; [reflexivity|].
  rewrite filter_cons. destruct (decide (s ∉ [])) as [_|H].
  - rewrite IH. reflexivity.
  - exfalso. apply H. intros Hs. inversion Hs.
Qed.

(** C6: the improvement plan is the first three missing required skills with
    priority High followed by the first two missing preferred skills with
    priority Medium, each with the courses [find_courses] returns for it (at
    most three); shorter lists give shorter plans; with no extracted skill
    the plan is drawn from the role's required and preferred skills. *)
Theorem improvement_plan_shape data resume_skills target rd :
  lookup_role data target = Some rd ->
  exists a,
    analyze_resume data resume_skills target = Ok a
    /\ improvement_plan a
       = map (fun s => {| skill := s; priority := High;
                          resources := find_courses data s |})
             (take 3 (missing_required a))
         ++ map (fun s => {| skill := s; priority := Medium;
                             resources := find_courses data s |})
                (take 2 (missing_preferred a))
    /\ length (improvement_plan a)
       = Nat.min 3 (length (missing_required a))
         + Nat.min 2 (length (missing_preferred a))
    /\ length (improvement_plan a) <= 5
    /\ Forall (fun e => length (resources e) <= 3) (improvement_plan a)
    /\ (resume_skills = [] ->
        improvement_plan a
        = map (fun s => {| skill := s; priority := High;
                           resources := find_courses data s |})
              (take 3 (required_skills rd))
          ++ map (fun s => {| skill := s; priority := Medium;
                              resources := find_courses data s |})
                 (take 2 (preferred_skills rd))).
Proof.
  intros Hl. exists (analyze_role data resume_skills rd).
  split; [apply analyze_resume_found; exact Hl|].
  cbn [analyze_role improvement_plan missing_required missing_preferred].
  split; [reflexivity|].
  assert (Hlen : length
            (plan_entries data High
               (take 3 (filter (fun s => s ∉ resume_skills) (required_skills rd)))
             ++ plan_entries data Medium
               (take 2 (filter (fun s => s ∉ resume_skills) (preferred_skills rd))))
          = Nat.min 3 (length (filter (fun s => s ∉ resume_skills)
                                      (required_skills rd)))
            + Nat.min 2 (length (filter (fun s => s ∉ resume_skills)
                                        (preferred_skills rd)))).
  { rewrite length_app, !length_plan_entries, !length_take. reflexivity. }
  split; [exact Hlen|].
  split; [rewrite Hlen; lia|].
  split.
  - apply Forall_app. split; apply plan_entries_resources.
  - intros ->. rewrite !filter_not_in_nil. reflexivity.
Qed.

Lemma improvement_plan_witness :
  exists a,
    analyze_resume default_career_roles [] "data scientist" = Ok a
    /\ map (fun e => (skill e, priority e)) (improvement_plan a)
       = [("Python", High); ("Statistics", High); ("Machine Learning", High);
          ("R", Medium); ("TensorFlow", Medium)].
Proof.
  destruct (improvement_plan_shape
              default_career_roles [] "data scientist" data_scientist eq_refl)
    as (a & Ha & _ & _ & _ & _ & He).
  exists a. split; [exact Ha|]. rewrite (He eq_refl). reflexivity.
Defined.

(** ** Substrings and whole-word occurrences *)

Section Matching.
Import Chars Regex WholeWord.

Lemma chars_lower s : chars (lower s) = map lower_char (chars s).
Proof. unfold lower, chars. apply list_ascii_of_string_of_list_ascii. Qed.

Lemma starts_with_spec sub l :
  starts_with sub l = true <-> exists post, l = sub ++ post.
Proof.
  revert l. induction sub as [|a sub IH]; intros l; simpl.
  - split; [intros _; exists l; reflexivity | reflexivity].
  - destruct l as [|b l].
    + split; [discriminate | intros [post Hp]; discriminate].
    + rewrite andb_true_iff, Ascii.eqb_eq, IH. split.
      * intros [-> [post ->]]. exists post. reflexivity.
      * intros [post [= -> ->]]. split; [reflexivity|]. exists post. reflexivity.
Qed.

Lemma contains_spec sub l :
  contains sub l = true <-> exists pre post, l = pre ++ sub ++ post.
Proof.
  induction l as [|b l IH]; simpl; rewrite orb_true_iff, starts_with_spec.
  - split.
    + intros [[post Hp]|H]; [|discriminate]. exists [], post. exact Hp.
    + intros (pre & post & Hp). left. destruct pre as [|c pre].
      * exists post. exact Hp.
      * discriminate.
  - rewrite IH. split.
    + intros [[post Hp]|(pre & post & ->)].
      * exists [], post. exact Hp.
      * exists (b :: pre), post. reflexivity.
    + intros (pre & post & Hp). destruct pre as [|c pre].
      * left. exists post. exact Hp.
      * right. injection Hp as _ ->. exists pre, post. reflexivity.
Qed.


Lemma xorb_true_neq a b : xorb a b = true <-> a <> b.
Proof. destruct a, b; simpl; split; congruence. Qed.

Lemma last_is_word_snoc ctx c : last_is_word (ctx ++ [c]) = is_word_char c.
Proof. unfold last_is_word. rewrite last_snoc. reflexivity. Qed.

Lemma at_boundary_spec ctx rest :
  at_boundary (last_is_word ctx) rest = true <-> word_boundary ctx rest.
Proof. unfold at_boundary, word_boundary. apply xorb_true_neq. Qed.

Lemma match_literal_spec pat : forall rest ctx,
  match_literal (last_is_word ctx) pat rest = true
  <-> exists mid post,
        rest = mid ++ post
        /\ eq_ignoring_case mid pat
        /\ word_boundary (ctx ++ mid) post.
Proof.
  unfold eq_ignoring_case.
  induction pat as [|p pat IH]; intros rest ctx; simpl.
  - rewrite at_boundary_spec. split.
    + intros H. exists [], rest. rewrite app_nil_r. auto.
    + intros (mid & post & -> & Hm & Hb).
      destruct mid; [|discriminate]. rewrite app_nil_r in Hb. exact Hb.
  - destruct rest as [|c rest].
    + split; [discriminate|].
      intros (mid & post & Hr & Hm & _).
      destruct mid; [discriminate Hm | discriminate Hr].
    + rewrite andb_true_iff. unfold char_eq_ci. rewrite Ascii.eqb_eq.
      rewrite <- (last_is_word_snoc ctx c), IH. split.
      * intros (Hc & mid & post & -> & Hm & Hb).
        exists (c :: mid), post. simpl. rewrite Hm, Hc.
        rewrite <- app_assoc in Hb. auto.
      * intros (mid & post & Hr & Hm & Hb).
        destruct mid as [|c' mid]; [discriminate Hm|].
        simpl in Hr, Hm. injection Hr as <- ->. injection Hm as Hc Hm.
        split; [congruence|]. exists mid, post.
        rewrite <- app_assoc. auto.
Qed.

Lemma search_go_spec pat : forall rest ctx,
  search_go (last_is_word ctx) pat rest = true
  <-> exists pre mid post,
        rest = pre ++ mid ++ post
        /\ eq_ignoring_case mid pat
        /\ word_boundary (ctx ++ pre) (mid ++ post)
        /\ word_boundary (ctx ++ pre ++ mid) post.
Proof.
  induction rest as [|c rest IH]; intros ctx; simpl;
    unfold match_here; rewrite orb_true_iff, andb_true_iff,
      at_boundary_spec, match_literal_spec.
  - split.
    + intros [(Hb & mid & post & Hr & Hm & He)|H]; [|discriminate].
      exists [], mid, post. simpl. rewrite app_nil_r, <- Hr. auto.
    + intros (pre & mid & post & Hr & Hm & Hb & He). left.
      destruct pre; [|discriminate]. simpl in *.
      rewrite app_nil_r, <- Hr in Hb. split; [exact Hb|].
      exists mid, post. auto.
  - rewrite <- (last_is_word_snoc ctx c), IH. split.
    + intros [(Hb & mid & post & Hr & Hm & He)|
              (pre & mid & post & -> & Hm & Hb & He)].
      * exists [], mid, post. simpl. rewrite app_nil_r, <- Hr. auto.
      * exists (c :: pre), mid, post. simpl.
        rewrite <- !app_assoc in Hb, He. simpl in Hb, He. auto.
    + intros (pre & mid & post & Hr & Hm & Hb & He).
      destruct pre as [|c' pre]; simpl in *.
      * left. rewrite app_nil_r, <- Hr in Hb. split; [exact Hb|].
        exists mid, post. auto.
      * right. injection Hr as <- ->. exists pre, mid, post.
        rewrite <- !app_assoc. simpl. auto.
Qed.

Lemma search_word_spec skill text :
  search_word skill text = true <-> anchored skill text.
Proof.
  unfold search_word, anchored.
  change false with (last_is_word []). rewrite search_go_spec.
  reflexivity.
Qed.

End Matching.

(** ** Skill extraction *)

Lemma all_skills_fold data : forall (acc : gset string) s,
  s ∈ foldl (fun acc r =>
               acc ∪ list_to_set (required_skills r)
                   ∪ list_to_set (preferred_skills r)) acc data
  <-> s ∈ acc
      \/ exists r, r ∈ data
                   /\ (s ∈ required_skills r \/ s ∈ preferred_skills r).
Proof.
  induction data as [|r data IH]; intros acc s; simpl.
  - split; [auto|]. intros [H|(r & Hr & _)]; [exact H | inversion Hr].
  - rewrite IH, !elem_of_union, !elem_of_list_to_set. split.
    + intros [[[H|H]|H]|(r' & Hr' & H)].
      * left. exact H.
      * right. exists r. split; [left | auto].
      * right. exists r. split; [left | auto].
      * right. exists r'. split; [right; exact Hr' | exact H].
    + intros [H|(r' & Hr' & H)]; [auto|].
      apply elem_of_cons in Hr' as [->|Hr'].
      * left. tauto.
      * right. exists r'. auto.
Qed.

Lemma all_skills_spec data s :
  s ∈ all_skills data
  <-> exists r, r ∈ data /\ (s ∈ required_skills r \/ s ∈ preferred_skills r).
Proof.
  unfold all_skills. rewrite all_skills_fold. split; [|auto].
  intros [H|H]; [|exact H]. apply not_elem_of_empty in H. destruct H.
Qed.

Lemma found_skills_spec text (vocabulary : gset string) s :
  s ∈ found_skills text vocabulary
  <-> s ∈ vocabulary /\ WholeWord.anchored s text.
Proof.
  unfold found_skills. rewrite elem_of_filter, search_word_spec. tauto.
Qed.

(** A skill that begins and ends with a word character is found in the text
    that consists of the skill alone. *)
Lemma verbatim_word_skill_found (vocabulary : gset string) s :
  s ∈ vocabulary ->
  Regex.next_is_word (Chars.chars s) = true ->
  WholeWord.last_is_word (Chars.chars s) = true ->
  s ∈ found_skills s vocabulary.
Proof.
  intros Hs Hfirst Hlast. apply found_skills_spec. split; [exact Hs|].
  exists [], (Chars.chars s), []. rewrite !app_nil_r. simpl.
  split; [reflexivity|]. split; [reflexivity|].
  unfold WholeWord.word_boundary. rewrite Hfirst, Hlast. simpl.
  split; discriminate.
Qed.

(** The two examples of the extraction: "PYTHON" yields "Python", and
    "Pythonic" yields nothing. *)
Lemma found_skills_examples :
  found_skills "PYTHON" {["Python"]} = {["Python"]}
  /\ found_skills "Pythonic" {["Python"]} = ∅.
Proof.
  split; apply set_eq; intros s; unfold found_skills;
    rewrite elem_of_filter, elem_of_singleton.
  - split; [tauto|]. intros ->. split; reflexivity.
  - split.
    + intros [H ->]. discriminate H.
    + intros H. apply not_elem_of_empty in H. destruct H.
Qed.

Section WholeWords.
Import Chars Regex WholeWord.

Lemma is_word_char_lower c : is_word_char (lower_char c) = is_word_char c.
Proof. destruct c as [[] [] [] [] [] [] [] []]; reflexivity. Qed.

Lemma lower_char_idem c : lower_char (lower_char c) = lower_char c.
Proof. destruct c as [[] [] [] [] [] [] [] []]; reflexivity. Qed.

Lemma is_word_char_ci a b :
  lower_char a = lower_char b -> is_word_char a = is_word_char b.
Proof.
  intros H. rewrite <- (is_word_char_lower a), <- (is_word_char_lower b), H.
  reflexivity.
Qed.

Lemma next_is_word_ci a b :
  eq_ignoring_case a b -> next_is_word a = next_is_word b.
Proof.
  unfold eq_ignoring_case. destruct a as [|x a], b as [|y b]; simpl;
    try discriminate; [reflexivity|].
  intros [= H _]. apply is_word_char_ci. exact H.
Qed.

Lemma last_is_word_ci a : forall b,
  eq_ignoring_case a b -> last_is_word a = last_is_word b.
Proof.
  unfold eq_ignoring_case.
  induction a as [|x a IH]; intros [|y b]; simpl; try discriminate;
    [reflexivity|].
  intros [= Hxy Hab]. destruct a as [|x' a], b as [|y' b]; try discriminate.
  - unfold last_is_word. simpl. apply is_word_char_ci. exact Hxy.
  - unfold last_is_word. rewrite !last_cons_cons. apply IH. exact Hab.
Qed.

Lemma next_is_word_app a b :
  next_is_word a = true -> next_is_word (a ++ b) = true.
Proof. destruct a; simpl; [discriminate | auto]. Qed.

Lemma last_is_word_app a b :
  last_is_word b = true -> last_is_word (a ++ b) = true.
Proof.
  unfold last_is_word. rewrite last_app.
  destruct (last b); [auto | discriminate].
Qed.

(** For a skill that begins and ends with a word character the anchors of
    the pattern hold exactly when the occurrence is delimited. *)
Lemma anchored_iff_delimited skill text :
  word_ended skill -> (anchored skill text <-> delimited skill text).
Proof.
  intros [Hfirst Hlast]. unfold anchored, delimited, word_boundary.
  split; intros (pre & mid & post & Ht & Hm & H1 & H2);
    exists pre, mid, post; (split; [exact Ht|]); (split; [exact Hm|]);
    pose proof (next_is_word_ci _ _ Hm) as Hn;
    pose proof (last_is_word_ci _ _ Hm) as Hl;
    rewrite Hfirst in Hn; rewrite Hlast in Hl;
    pose proof (next_is_word_app mid post Hn) as Hn';
    pose proof (last_is_word_app pre mid Hl) as Hl'.
  - rewrite Hn' in H1. rewrite Hl' in H2.
    split; [destruct (last_is_word pre) | destruct (next_is_word post)];
      congruence.
  - rewrite Hn', Hl', H1, H2. split; discriminate.
Qed.

Lemma literal_then_gap_spec pat : forall rest,
  literal_then_gap pat rest = true
  <-> exists mid post,
        rest = mid ++ post
        /\ eq_ignoring_case mid pat
        /\ next_is_word post = false.
Proof.
  unfold eq_ignoring_case.
  induction pat as [|p pat IH]; intros rest; simpl.
  - rewrite negb_true_iff. split.
    + intros H. exists [], rest. auto.
    + intros (mid & post & -> & Hm & Hp). destruct mid; [exact Hp|].
      discriminate Hm.
  - destruct rest as [|c rest].
    + split; [discriminate|]. intros (mid & post & Hr & Hm & _).
      destruct mid; [discriminate Hm | discriminate Hr].
    + rewrite andb_true_iff. unfold char_eq_ci. rewrite Ascii.eqb_eq, IH.
      split.
      * intros (Hc & mid & post & -> & Hm & Hp).
        exists (c :: mid), post. simpl. rewrite Hm, Hc. auto.
      * intros (mid & post & Hr & Hm & Hp).
        destruct mid as [|c' mid]; [discriminate Hm|].
        simpl in Hr, Hm. injection Hr as <- ->. injection Hm as Hc Hm.
        split; [congruence|]. exists mid, post. auto.
Qed.

Lemma delimited_from_spec pat : forall rest ctx,
  delimited_from (last_is_word ctx) pat rest = true
  <-> exists pre mid post,
        rest = pre ++ mid ++ post
        /\ eq_ignoring_case mid pat
        /\ last_is_word (ctx ++ pre) = false
        /\ next_is_word post = false.
Proof.
  induction rest as [|c rest IH]; intros ctx; simpl;
    rewrite orb_true_iff, andb_true_iff, negb_true_iff,
      literal_then_gap_spec.
  - split.
    + intros [(Hb & mid & post & Hr & Hm & He)|H]; [|discriminate].
      exists [], mid, post. simpl. rewrite app_nil_r. auto.
    + intros (pre & mid & post & Hr & Hm & Hb & He). left.
      destruct pre; [|discriminate]. simpl in *.
      rewrite app_nil_r in Hb. split; [exact Hb|].
      exists mid, post. auto.
  - rewrite <- (last_is_word_snoc ctx c), IH. split.
    + intros [(Hb & mid & post & Hr & Hm & He)|
              (pre & mid & post & -> & Hm & Hb & He)].
      * exists [], mid, post. simpl. rewrite app_nil_r. auto.
      * exists (c :: pre), mid, post. simpl.
        rewrite <- app_assoc in Hb. simpl in Hb. auto.
    + intros (pre & mid & post & Hr & Hm & Hb & He).
      destruct pre as [|c' pre]; simpl in *.
      * left. rewrite app_nil_r in Hb. split; [exact Hb|].
        exists mid, post. auto.
      * right. injection Hr as <- ->. exists pre, mid, post.
        rewrite <- app_assoc. simpl. auto.
Qed.

Lemma delimited_b_spec skill text :
  delimited_b skill text = true <-> delimited skill text.
Proof.
  unfold delimited_b, delimited.
  change false with (last_is_word []). rewrite delimited_from_spec.
  reflexivity.
Qed.

End WholeWords.

(** For a skill that begins and ends with a word character, extraction is
    the whole-word match: the skill is extracted exactly when it is in the
    vocabulary and occurs in the text, up to case, with no word character
    right before or after the occurrence. *)
Lemma extract_skills_word_ended data text s :
  WholeWord.word_ended s ->
  (s ∈ extract_skills data text
   <-> s ∈ all_skills data /\ WholeWord.delimited s text).
Proof.
  intros Hw. unfold extract_skills.
  rewrite elem_of_elements, found_skills_spec,
    (anchored_iff_delimited s text Hw).
  reflexivity.
Qed.

(** C4 fails on the code, by the defect of C3: the text "I know C++ and C#
    well" contains the vocabulary entry "C++" as a whole word (a space on
    either side), and nothing is extracted from it; the text "ASP.NET" does
    not contain the entry ".NET" as a whole word (the letter "P" is right
    before it), and ".NET" is extracted from it. The anchor [\b] asks for a
    word character on exactly one side, which is a whole-word test only for
    entries that begin and end with a word character. *)
Theorem whole_word_missed_and_word_part_found :
  "C++" ∈ all_skills [systems_programmer]
  /\ WholeWord.delimited "C++" "I know C++ and C# well"
  /\ extract_skills [systems_programmer] "I know C++ and C# well" = []
  /\ ".NET" ∈ all_skills [dotnet_developer]
  /\ ~ WholeWord.delimited ".NET" "ASP.NET"
  /\ extract_skills [dotnet_developer] "ASP.NET" = [".NET"].
Proof.
  split.
  { apply all_skills_spec. exists systems_programmer.
    split; [left | left; left]. }
  split; [apply delimited_b_spec; reflexivity|].
  split; [vm_compute; reflexivity|].
  split.
  { apply all_skills_spec. exists dotnet_developer.
    split; [left | left; left]. }
  split; [|vm_compute; reflexivity].
  rewrite <- delimited_b_spec. discriminate.
Qed.

(** C3 fails on the code: the skill "C++" is in the vocabulary, and the text
    "C++" yields no skill, because the closing [\b] asks for a word character
    next to the final "+" (the text "C++x" has one); likewise "C#", and
    ".NET" at the opening [\b]. *)
Theorem verbatim_symbol_skill_not_found :
  "C++" ∈ all_skills [systems_programmer]
  /\ Regex.search_word "C++" "C++" = false
  /\ ("C++" ∉ extract_skills [systems_programmer] "C++")
  /\ Regex.search_word "C++" "C++x" = true
  /\ Regex.search_word "C#" "C#" = false
  /\ Regex.search_word ".NET" ".NET" = false.
Proof.
  split.
  { apply all_skills_spec. exists systems_programmer.
    split; [left | left; left]. }
  split; [reflexivity|]. split; [|repeat split; reflexivity].
  unfold extract_skills. rewrite elem_of_elements. unfold found_skills.
  rewrite elem_of_filter. intros [H _]. discriminate H.
Qed.

(** ** Course lookup *)



(** ** The match percentage *)

Lemma percentage_no_skills matched : percentage matched 0 = 0%Z.
Proof. reflexivity. Qed.

Lemma pairs_upto_In lo len matched total :
  lo <= total < lo + len -> matched <= total ->
  In (matched, total) (pairs_upto lo len).
Proof.
  intros Ht Hm. unfold pairs_upto. apply in_flat_map. exists total.
  split; [apply in_seq; lia|].
  apply in_map_iff. exists matched. split; [reflexivity|]. apply in_seq. lia.
Qed.

(** For a role with fewer than fifty skills the float computation gives the
    floor of the exact percentage. *)
Lemma percentage_is_floor_below_50 matched total :
  0 < total < 50 -> matched <= total ->
  percentage matched total = (100 * Z.of_nat matched / Z.of_nat total)%Z.
Proof.
  intros Ht Hm.
  assert (H : forallb (fun p => (percentage (fst p) (snd p)
                                 =? 100 * Z.of_nat (fst p) / Z.of_nat (snd p))%Z)
                      (pairs_upto 1 49) = true) by (vm_compute; reflexivity).
  rewrite forallb_forall in H.
  specialize (H (matched, total) (pairs_upto_In 1 49 matched total ltac:(lia) Hm)).
  apply Z.eqb_eq in H. exact H.
Qed.

(** Up to a hundred skills the result lies between 0 and 100 and is the
    floor of the exact percentage or one below it. *)
Lemma percentage_range_upto_100 matched total :
  total <= 100 -> matched <= total ->
  (0 <= percentage matched total <= 100)%Z
  /\ (total <> 0 ->
      (100 * Z.of_nat matched / Z.of_nat total - 1
       <= percentage matched total
       <= 100 * Z.of_nat matched / Z.of_nat total)%Z).
Proof.
  intros Ht Hm. destruct (decide (total = 0)) as [->|Hz].
  { rewrite percentage_no_skills. split; [lia | congruence]. }
  assert (H : forallb (fun p =>
                (0 <=? percentage (fst p) (snd p))%Z
                && (percentage (fst p) (snd p) <=? 100)%Z
                && (100 * Z.of_nat (fst p) / Z.of_nat (snd p) - 1
                    <=? percentage (fst p) (snd p))%Z
                && (percentage (fst p) (snd p)
                    <=? 100 * Z.of_nat (fst p) / Z.of_nat (snd p))%Z)
              (pairs_upto 1 100) = true) by (vm_compute; reflexivity).
  rewrite forallb_forall in H.
  specialize (H (matched, total) (pairs_upto_In 1 100 matched total ltac:(lia) Hm)).
  cbn [fst snd] in H. rewrite !andb_true_iff, !Z.leb_le in H. lia.
Qed.

(** C1 fails on the code at 29 matched skills of 50: the quotient 29/50 is
    rounded to a double below 0.58, its product with 100 is rounded to a
    double below 58, and [int] truncates it to 57, while the floor of
    100 * 29 / 50 is 58. *)
Theorem match_percentage_below_floor :
  exists a,
    analyze_resume [polyglot] (numbered_skills 29) "Polyglot" = Ok a
    /\ length (matched_skills a) = 29
    /\ length (required_skills polyglot) + length (preferred_skills polyglot)
       = 50
    /\ match_percentage a = 57%Z
    /\ (100 * 29 / 50 = 58)%Z.
Proof.
  eexists. split; [reflexivity|].
  split; [vm_compute; reflexivity|].
  split; [reflexivity|].
  split; vm_compute; reflexivity.
Qed.

(** ** The experience filter *)

Lemma split_go_nonempty sep : forall s skip cur,
  Chars.split_go sep skip cur s <> [].
Proof.
  induction s as [|c s IH]; intros skip cur; simpl; [discriminate|].
  destruct skip; [|apply IH].
  destruct (Chars.starts_with sep (c :: s)); [discriminate | apply IH].
Qed.

(** [role_levels[0]] and [role_levels[-1]] always exist. *)
Lemma role_levels_nonempty r : role_levels r <> [].
Proof.
  unfold role_levels, Chars.split. intros H.
  apply map_eq_nil in H. exact (split_go_nonempty _ _ _ _ H).
Qed.

Lemma index_None x l : index x l = None <-> x ∉ l.
Proof.
  induction l as [|y l IH]; simpl.
  - split; [intros _ H; inversion H | reflexivity].
  - destruct (decide (y = x)) as [->|Hne].
    + split; [discriminate|]. intros H. exfalso. apply H. left.
    + rewrite not_elem_of_cons, <- IH.
      destruct (index x l); simpl; split.
      * discriminate.
      * intros [_ H]. discriminate H.
      * intros _. split; [congruence | reflexivity].
      * reflexivity.
Qed.

Lemma experience_excludes_unknown experience r :
  experience ∉ level_order -> experience_excludes experience r = false.
Proof.
  intros H. apply index_None in H. unfold experience_excludes.
  rewrite H. reflexivity.
Qed.

Lemma level_order_lookup i name :
  level_order !! i = Some name -> index name level_order = Some i.
Proof.
  destruct i as [|[|[|[|i]]]]; simpl; intros [= <-]; reflexivity.
Qed.

(** Both ends of a range written 'A to B' with A and B on the scale are what
    the filter reads as the lowest and the highest level of the role. *)
Lemma range_levels r lo hi lo_name hi_name :
  level_order !! lo = Some lo_name ->
  level_order !! hi = Some hi_name ->
  experience_level r = Some (lo_name +:+ " to " +:+ hi_name) ->
  min_level r = lo_name /\ max_level r = hi_name.
Proof.
  intros Hlo Hhi Hr. unfold max_level, min_level, role_levels. rewrite Hr.
  destruct lo as [|[|[|[|lo]]]]; simpl in Hlo; try discriminate;
    injection Hlo as <-;
    destruct hi as [|[|[|[|hi]]]]; simpl in Hhi; try discriminate;
    injection Hhi as <-; split; reflexivity.
Qed.

Lemma consider_unfiltered resume_skills experience r :
  experience_excludes experience r = false ->
  consider resume_skills experience r = consider_score resume_skills r.
Proof. intros H. unfold consider. rewrite H. reflexivity. Qed.

(** C10: for a role whose [experience_level] reads 'A to B' with A and B on
    the scale Entry, Mid, Senior, Lead, and an experience level on the
    scale, the role is considered for recommendation exactly when the level
    lies between A and B on the scale, and is skipped otherwise; with an
    experience level off the scale ('Expert' is one) no role is skipped by
    the filter. *)
Theorem experience_filter_policy :
  (forall resume_skills experience r lo hi e lo_name hi_name,
      level_order !! lo = Some lo_name ->
      level_order !! hi = Some hi_name ->
      level_order !! e = Some experience ->
      experience_level r = Some (lo_name +:+ " to " +:+ hi_name) ->
      consider resume_skills experience r
      = if (lo <=? e)%nat && (e <=? hi)%nat
        then consider_score resume_skills r
        else None)
  /\ (forall resume_skills experience r,
         experience ∉ level_order ->
         consider resume_skills experience r
         = consider_score resume_skills r)
  /\ (forall experience data resume_skills,
         experience ∉ level_order ->
         recommended_roles data resume_skills experience
         = omap (consider_score resume_skills) data)
  /\ "Expert" ∉ level_order.
Proof.
  split.
  { intros resume_skills experience r lo hi e lo_name hi_name
           Hlo Hhi He Hr.
    destruct (range_levels r lo hi lo_name hi_name Hlo Hhi Hr)
      as [Hmin Hmax].
    apply level_order_lookup in Hlo, Hhi, He.
    unfold consider, experience_excludes.
    rewrite He, Hmin, Hmax, Hlo, Hhi.
    destruct (e <? lo)%nat eqn:H1.
    - apply Nat.ltb_lt in H1.
      assert (H2 : (lo <=? e)%nat = false) by (apply Nat.leb_gt; lia).
      rewrite H2. reflexivity.
    - apply Nat.ltb_ge in H1.
      assert (H2 : (lo <=? e)%nat = true) by (apply Nat.leb_le; lia).
      rewrite H2. simpl.
      destruct (hi <? e)%nat eqn:H3.
      + apply Nat.ltb_lt in H3.
        assert (H4 : (e <=? hi)%nat = false) by (apply Nat.leb_gt; lia).
        rewrite H4. reflexivity.
      + apply Nat.ltb_ge in H3.
        assert (H4 : (e <=? hi)%nat = true) by (apply Nat.leb_le; lia).
        rewrite H4. reflexivity. }
  split.
  { intros resume_skills experience r H. apply consider_unfiltered.
    apply experience_excludes_unknown. exact H. }
  split.
  { intros experience data resume_skills H. unfold recommended_roles.
    induction data as [|r data IH]; [reflexivity|].
    cbn [omap list_omap]. rewrite IH.
    rewrite (consider_unfiltered _ _ _ (experience_excludes_unknown _ _ H)).
    reflexivity. }
  apply index_None. reflexivity.
Qed.

Lemma experience_filter_witness :
  consider ["Python"] "Entry" architect = None
  /\ consider ["Python"] "Lead" architect
     = Some (recommendation ["Python"] architect)
  /\ consider ["SQL"] "Senior" analyst = Some (recommendation ["SQL"] analyst)
  /\ consider ["SQL"] "Entry" analyst = None
  /\ consider ["Python"] "Expert" architect
     = Some (recommendation ["Python"] architect).
Proof.
  destruct experience_filter_policy as (Hrange & Hskip & _ & Hexpert).
  split.
  { rewrite (Hrange ["Python"] "Entry" architect 2 3 0 "Senior" "Lead");
      reflexivity. }
  split.
  { rewrite (Hrange ["Python"] "Lead" architect 2 3 3 "Senior" "Lead");
      reflexivity. }
  split.
  { rewrite (Hrange ["SQL"] "Senior" analyst 1 3 2 "Mid" "Lead");
      reflexivity. }
  split.
  { rewrite (Hrange ["SQL"] "Entry" analyst 1 3 0 "Mid" "Lead");
      reflexivity. }
  rewrite (Hskip ["Python"] "Expert" architect Hexpert). reflexivity.
Defined.

(** ** Ordering of the recommendations *)

Section Sorting.

Lemma key_lt_false x y :
  key_lt (sort_key x) (sort_key y) = false -> key_ge x y.
Proof.
  unfold key_lt, key_ge, sort_key; simpl.
  destruct (Qcompare_spec (match_score x) (match_score y)) as [He|Hl|Hg].
  - intros H. apply Z.ltb_ge in H. right. split; [symmetry; exact He | exact H].
  - discriminate.
  - intros _. left. exact Hg.
Qed.

Lemma key_lt_true x y :
  key_lt (sort_key x) (sort_key y) = true -> key_ge y x.
Proof.
  unfold key_lt, key_ge, sort_key; simpl.
  destruct (Qcompare_spec (match_score x) (match_score y)) as [He|Hl|Hg].
  - intros H. apply Z.ltb_lt in H. right. split; [exact He | lia].
  - intros _. left. exact Hl.
  - discriminate.
Qed.

Lemma key_ge_trans x y z : key_ge x y -> key_ge y z -> key_ge x z.
Proof.
  unfold key_ge. intros [Hxy|[Exy Gxy]] [Hyz|[Eyz Gyz]].
  - left. eapply Qlt_trans; eassumption.
  - left. rewrite Eyz. exact Hxy.
  - left. rewrite <- Exy. exact Hyz.
  - right. split; [rewrite Eyz; exact Exy | lia].
Qed.

Lemma insert_desc_perm x l : insert_desc x l ≡ₚ x :: l.
Proof.
  induction l as [|y l IH]; simpl; [reflexivity|].
  destruct (key_lt (sort_key x) (sort_key y)); [|reflexivity].
  rewrite IH. apply Permutation_swap.
Qed.

Lemma sort_desc_perm l : sort_desc l ≡ₚ l.
Proof.
  induction l as [|x l IH]; simpl; [reflexivity|].
  rewrite insert_desc_perm, IH. reflexivity.
Qed.

Lemma insert_desc_sorted x l :
  StronglySorted key_ge l -> StronglySorted key_ge (insert_desc x l).
Proof.
  induction l as [|y l IH]; simpl; intros Hs.
  - repeat constructor.
  - apply StronglySorted_inv in Hs as [Hl Hy].
    destruct (key_lt (sort_key x) (sort_key y)) eqn:Hk.
    + constructor; [apply IH; exact Hl|].
      rewrite insert_desc_perm. constructor; [|exact Hy].
      apply key_lt_true. exact Hk.
    + apply key_lt_false in Hk.
      constructor; [constructor; assumption|].
      constructor; [exact Hk|].
      eapply Forall_impl; [exact Hy|].
      intros z Hz. eapply key_ge_trans; eassumption.
Qed.

Lemma sort_desc_sorted l : StronglySorted key_ge (sort_desc l).
Proof.
  induction l as [|x l IH]; simpl; [constructor|].
  apply insert_desc_sorted. exact IH.
Qed.

Lemma take_sorted n : forall l,
  StronglySorted key_ge l -> StronglySorted key_ge (take n l).
Proof.
  induction n as [|n IH]; intros [|x l] Hs; simpl; try constructor.
  - apply IH. apply StronglySorted_inv in Hs. tauto.
  - apply Forall_take. apply StronglySorted_inv in Hs. tauto.
Qed.

End Sorting.

Lemma consider_Some resume_skills experience r x :
  consider resume_skills experience r = Some x ->
  x = recommendation resume_skills r
  /\ experience_excludes experience r = false
  /\ (0 < score resume_skills r)%Q.
Proof.
  unfold consider, Qlt_bool.
  destruct (experience_excludes experience r); [discriminate|].
  destruct (0 ?= score resume_skills r)%Q eqn:Hc; try discriminate.
  intros [= <-]. split; [reflexivity|]. split; [reflexivity|].
  apply Qlt_alt. exact Hc.
Qed.

Lemma career_path_elem data resume_skills experience x :
  x ∈ career_path data resume_skills experience ->
  exists r, r ∈ data /\ consider resume_skills experience r = Some x.
Proof.
  unfold career_path. intros H. apply subseteq_take in H.
  rewrite sort_desc_perm in H. apply list_elem_of_omap in H. exact H.
Qed.

Example career_path_default_catalog :
  map (fun x => (rec_role x, Qred (match_score x), growth x))
      (career_path default_career_roles ["Python"; "AWS"; "R"] "Mid")
  = [("Data Scientist", 2 # 1, 103%Z); ("Software Engineer", 3 # 2, 105%Z)]
  /\ career_path default_career_roles ["Python"; "AWS"; "R"] "Lead" = []
  /\ map rec_role (career_path default_career_roles ["Python"; "AWS"] "Expert")
     = ["Software Engineer"; "Data Scientist"].
Proof. repeat split; reflexivity. Qed.

(** C8: [career_path] returns at most five recommendations; each comes from
    a catalog role, carries the score |required ∩ skills| + 0.5 * |preferred
    ∩ skills|, which is above 0, and the role's last demand index (100 when
    there is none) as growth; the list is in descending order of
    (score, growth). *)
Theorem career_path_top_five_sorted data resume_skills experience :
  length (career_path data resume_skills experience) <= 5
  /\ Forall
       (fun x =>
          exists r,
            r ∈ data
            /\ x = recommendation resume_skills r
            /\ match_score x
               = (inject_Z (Z.of_nat
                    (size ((list_to_set (required_skills r) : gset string)
                           ∩ list_to_set resume_skills)))
                  + (1 # 2)
                    * inject_Z (Z.of_nat
                        (size ((list_to_set (preferred_skills r) : gset string)
                               ∩ list_to_set resume_skills))))%Q
            /\ (0 < match_score x)%Q
            /\ ~ (match_score x == 0)%Q
            /\ growth x = match last (demand_index (growth_trend r)) with
                          | Some g => g
                          | None => 100%Z
                          end)
       (career_path data resume_skills experience)
  /\ StronglySorted key_ge (career_path data resume_skills experience).
Proof.
  split; [unfold career_path; rewrite length_take; lia|].
  split.
  - apply Forall_forall. intros x Hx.
    apply career_path_elem in Hx as (r & Hr & Hc).
    apply consider_Some in Hc as (-> & _ & Hpos).
    exists r. split; [exact Hr|]. split; [reflexivity|].
    split; [reflexivity|]. split; [exact Hpos|]. split; [|reflexivity].
    cbn [match_score recommendation]. intros H0. rewrite H0 in Hpos.
    apply (Qlt_irrefl 0). exact Hpos.
  - apply take_sorted, sort_desc_sorted.
Qed.

(** * Further properties of the code *)

(** ** [extract_skills] *)

(** X1: the extracted skills are listed without repetition, and each one is
    a required or preferred skill of some catalog role. *)
Theorem extract_skills_distinct_and_known data text :
  NoDup (extract_skills data text)
  /\ forall s, s ∈ extract_skills data text ->
               exists r, r ∈ data
                         /\ (s ∈ required_skills r \/ s ∈ preferred_skills r).
Proof.
  unfold extract_skills. split; [apply NoDup_elements|].
  intros s Hs. apply elem_of_elements, found_skills_spec in Hs as [Hs _].
  apply all_skills_spec. exact Hs.
Qed.

Lemma search_go_no_word_char pat : forall rest,
  forallb (fun c => negb (Chars.is_word_char c)) rest = true ->
  Regex.search_go false pat rest = false.
Proof.
  induction rest as [|c rest IH]; simpl; intros H.
  - reflexivity.
  - apply andb_true_iff in H as [Hc H]. apply negb_true_iff in Hc.
    unfold Regex.match_here, Regex.at_boundary. simpl. rewrite Hc. simpl.
    apply IH. exact H.
Qed.

(** X2: a text without any letter, digit or underscore (the empty text among
    them) yields no skill, whatever the catalog. *)
Theorem extract_skills_needs_a_word_character data text :
  forallb (fun c => negb (Chars.is_word_char c)) (Chars.chars text) = true ->
  extract_skills data text = [].
Proof.
  intros H. unfold extract_skills. apply elements_empty_iff.
  intros s. split; [|intros Hs; apply not_elem_of_empty in Hs; destruct Hs].
  unfold found_skills. rewrite elem_of_filter. intros [Hs _].
  unfold Regex.search_word in Hs.
  rewrite (search_go_no_word_char _ _ H) in Hs. discriminate Hs.
Qed.

Lemma extract_skills_needs_a_word_character_witness :
  extract_skills default_career_roles "" = []
  /\ extract_skills [systems_programmer] "+ - (#) ..." = [].
Proof.
  split.
  - apply (extract_skills_needs_a_word_character default_career_roles "").
    reflexivity.
  - apply (extract_skills_needs_a_word_character
             [systems_programmer] "+ - (#) ...").
    reflexivity.
Defined.

Section CaseOfText.
Import Chars Regex.

Lemma next_is_word_lower rest :
  next_is_word (map lower_char rest) = next_is_word rest.
Proof. destruct rest; simpl; [reflexivity | apply is_word_char_lower]. Qed.

Lemma match_literal_lower pat : forall rest prev_word,
  match_literal prev_word pat (map lower_char rest)
  = match_literal prev_word pat rest.
Proof.
  induction pat as [|p pat IH]; intros rest prev_word; simpl.
  - unfold at_boundary. rewrite next_is_word_lower. reflexivity.
  - destruct rest as [|c rest]; simpl; [reflexivity|].
    unfold char_eq_ci. rewrite lower_char_idem, is_word_char_lower, IH.
    reflexivity.
Qed.

Lemma search_go_lower pat : forall rest prev_word,
  search_go prev_word pat (map lower_char rest)
  = search_go prev_word pat rest.
Proof.
  induction rest as [|c rest IH]; intros prev_word; simpl.
  - reflexivity.
  - unfold match_here, at_boundary.
    change (lower_char c :: map lower_char rest)
      with (map lower_char (c :: rest)).
    rewrite match_literal_lower, next_is_word_lower, is_word_char_lower, IH.
    reflexivity.
Qed.

Lemma search_word_lower_text skill text :
  search_word skill (lower text) = search_word skill text.
Proof.
  unfold search_word. rewrite chars_lower. apply search_go_lower.
Qed.

End CaseOfText.

(** X3: the case of an ASCII text does not matter: two ASCII texts with the
    same lowered form yield the same skills. *)
Theorem extract_skills_ignores_case_of_text data text text' :
  WholeWord.ascii_text text = true ->
  WholeWord.ascii_text text' = true ->
  Chars.lower text = Chars.lower text' ->
  extract_skills data text = extract_skills data text'.
Proof.
  intros _ _ H. unfold extract_skills. f_equal. apply set_eq. intros s.
  unfold found_skills. rewrite !elem_of_filter.
  rewrite <- (search_word_lower_text s text),
          <- (search_word_lower_text s text'), H.
  reflexivity.
Qed.

Lemma extract_skills_ignores_case_witness :
  extract_skills default_career_roles "python AND sql"
  = extract_skills default_career_roles "PYTHON and SQL".
Proof.
  apply (extract_skills_ignores_case_of_text default_career_roles
           "python AND sql" "PYTHON and SQL");
    reflexivity.
Defined.

(** ** [analyze_resume] *)

(** X4: every entry of the role's required and preferred skills is counted
    once, as matched or as missing: the three lists together rearrange the
    role's skills, so their lengths add up to the total the percentage is
    taken of. *)
Theorem analysis_splits_role_skills data resume_skills target rd :
  lookup_role data target = Some rd ->
  exists a,
    analyze_resume data resume_skills target = Ok a
    /\ matched_skills a ++ missing_required a ++ missing_preferred a
       ≡ₚ required_skills rd ++ preferred_skills rd
    /\ length (matched_skills a) + length (missing_required a)
       + length (missing_preferred a)
       = length (required_skills rd) + length (preferred_skills rd).
Proof.
  intros Hl. exists (analyze_role data resume_skills rd).
  split; [apply analyze_resume_found; exact Hl|].
  cbn [analyze_role matched_skills missing_required missing_preferred].
  assert (Hp : filter (fun s => s ∈ resume_skills)
                      (required_skills rd ++ preferred_skills rd)
               ++ filter (fun s => s ∉ resume_skills) (required_skills rd)
               ++ filter (fun s => s ∉ resume_skills) (preferred_skills rd)
               ≡ₚ required_skills rd ++ preferred_skills rd).
  { rewrite <- filter_app.
    apply (filter_app_complement (fun s => s ∈ resume_skills)). }
  split; [exact Hp|].
  apply Permutation_length in Hp. rewrite !length_app in Hp.
  rewrite <- !length_app. rewrite !length_app. lia.
Qed.

Lemma analysis_splits_role_skills_witness :
  exists a,
    analyze_resume default_career_roles ["SQL"; "Docker"] "software engineer"
    = Ok a
    /\ length (matched_skills a) + length (missing_required a)
       + length (missing_preferred a) = 8.
Proof.
  destruct (analysis_splits_role_skills
              default_career_roles ["SQL"; "Docker"] "software engineer"
              software_engineer eq_refl)
    as (a & Ha & _ & Hlen).
  exists a. split; [exact Ha | exact Hlen].
Defined.

(** X5: the analysis depends on the resume skills only as a set: two lists
    with the same members, in any order and with any repetition, give the
    same response. *)
Theorem analyze_resume_depends_on_skill_set data skills skills' target :
  (forall s, s ∈ skills <-> s ∈ skills') ->
  analyze_resume data skills target = analyze_resume data skills' target.
Proof.
  intros H. unfold analyze_resume.
  destruct (lookup_role data target) as [rd|]; [|reflexivity].
  f_equal. unfold analyze_role.
  rewrite (list_filter_iff (fun s => s ∉ skills) (fun s => s ∉ skills')
             (required_skills rd)) by (intros s; rewrite (H s); reflexivity).
  rewrite (list_filter_iff (fun s => s ∉ skills) (fun s => s ∉ skills')
             (preferred_skills rd)) by (intros s; rewrite (H s); reflexivity).
  rewrite (list_filter_iff (fun s => s ∈ skills) (fun s => s ∈ skills')
             (required_skills rd ++ preferred_skills rd)) by exact H.
  reflexivity.
Qed.

Lemma analyze_resume_depends_on_skill_set_witness :
  analyze_resume default_career_roles ["AWS"; "Python"; "AWS"] "Data Scientist"
  = analyze_resume default_career_roles ["Python"; "AWS"] "Data Scientist".
Proof.
  apply (analyze_resume_depends_on_skill_set default_career_roles
           ["AWS"; "Python"; "AWS"] ["Python"; "AWS"] "Data Scientist").
  intros s. rewrite !elem_of_cons. tauto.
Defined.

(** ** [find_courses] *)

(** X6: the empty skill is contained in every title, so [find_courses]
    returns the first three courses of the catalog for it. *)
Theorem find_courses_empty_skill data :
  find_courses data "" = take 3 (flat_map recommended_courses data).
Proof.
  unfold find_courses. f_equal.
  induction data as [|r data IH]; simpl; [reflexivity|].
  rewrite IH. f_equal.
  induction (recommended_courses r) as [|c l IHl]; [reflexivity|].
  rewrite filter_cons. destruct (decide (title_matches "" c = true)) as [_|Hn].
  - rewrite IHl. reflexivity.
  - exfalso. apply Hn. unfold title_matches.
    destruct (Chars.chars (Chars.lower (title c))); reflexivity.
Qed.

(** ** [career_path] *)

Lemma consider_without_match resume_skills experience r :
  (forall s, s ∈ resume_skills ->
             (s ∉ required_skills r) /\ (s ∉ preferred_skills r)) ->
  consider resume_skills experience r = None.
Proof.
  intros H. unfold consider.
  destruct (experience_excludes experience r); [reflexivity|].
  unfold score.
  assert (Hr : (list_to_set (required_skills r) : gset string)
               ∩ list_to_set resume_skills = ∅).
  { apply set_eq. intros s.
    rewrite elem_of_intersection, !elem_of_list_to_set.
    split; [|intros Hs; apply not_elem_of_empty in Hs; destruct Hs].
    intros [Hs1 Hs2]. destruct (H s Hs2) as [Hn _]. destruct (Hn Hs1). }
  assert (Hp : (list_to_set (preferred_skills r) : gset string)
               ∩ list_to_set resume_skills = ∅).
  { apply set_eq. intros s.
    rewrite elem_of_intersection, !elem_of_list_to_set.
    split; [|intros Hs; apply not_elem_of_empty in Hs; destruct Hs].
    intros [Hs1 Hs2]. destruct (H s Hs2) as [_ Hn]. destruct (Hn Hs1). }
  rewrite Hr, Hp, size_empty. reflexivity.
Qed.

(** X7: when none of the submitted skills is a skill of the catalog (no
    skills at all, for one), no role is recommended. *)
Theorem career_path_without_catalog_skill data resume_skills experience :
  (forall s, s ∈ resume_skills -> s ∉ all_skills data) ->
  career_path data resume_skills experience = [].
Proof.
  intros H. unfold career_path, recommended_roles.
  assert (Hall : forall r, r ∈ data ->
                   consider resume_skills experience r = None).
  { intros r Hr. apply consider_without_match. intros s Hs.
    specialize (H s Hs). rewrite all_skills_spec in H.
    split; intros Hin; apply H; exists r; auto. }
  clear H. induction data as [|r data IH]; [reflexivity|].
  cbn [omap list_omap]. rewrite (Hall r) by left.
  apply IH. intros r' Hr'. apply Hall. right. exact Hr'.
Qed.

Lemma career_path_without_catalog_skill_witness :
  career_path default_career_roles [] "Entry" = []
  /\ career_path default_career_roles ["python"] "Mid" = [].
Proof.
  split.
  - apply (career_path_without_catalog_skill default_career_roles [] "Entry").
    intros s Hs. inversion Hs.
  - apply (career_path_without_catalog_skill
             default_career_roles ["python"] "Mid").
    intros s Hs. apply list_elem_of_singleton in Hs as ->.
    apply (bool_decide_eq_true_1 _). vm_compute. reflexivity.
Defined.

(** X8: [career_path] leaves out nothing that ranks above what it returns:
    its result and the roles left out together are the roles kept by the
    loop, every role left out is at or below every returned one in
    (score, growth), and when at most five roles are kept all of them are
    returned. *)
Theorem career_path_keeps_the_best data resume_skills experience :
  let kept := recommended_roles data resume_skills experience in
  let out := career_path data resume_skills experience in
  exists left_out,
    out ++ left_out ≡ₚ kept
    /\ (forall x y, x ∈ out -> y ∈ left_out -> key_ge x y)
    /\ (length kept <= 5 -> left_out = [] /\ out ≡ₚ kept).
Proof.
  intros kept out. exists (drop 5 (sort_desc kept)).
  assert (Happ : out ++ drop 5 (sort_desc kept) = sort_desc kept)
    by apply take_drop.
  split; [rewrite Happ; apply sort_desc_perm|].
  split.
  - intros x y Hx Hy.
    eapply (StronglySorted_app_1_elem_of key_ge out (drop 5 (sort_desc kept)));
      [rewrite Happ; apply sort_desc_sorted | exact Hx | exact Hy].
  - intros Hlen.
    assert (Hd : drop 5 (sort_desc kept) = []).
    { apply drop_ge. rewrite (Permutation_length (sort_desc_perm kept)).
      exact Hlen. }
    split; [exact Hd|].
    rewrite <- (sort_desc_perm kept), <- Happ, Hd, app_nil_r. reflexivity.
Qed.

Section Stability.

Lemma key_eqb_not_lt k a b :
  key_eqb k a = true -> key_eqb k b = true -> key_lt a b = false.
Proof.
  unfold key_eqb, key_lt. rewrite !andb_true_iff, !Z.eqb_eq.
  intros [Ha Hza] [Hb Hzb]. apply Qeq_bool_iff in Ha, Hb.
  assert (He : (fst a == fst b)%Q) by (rewrite <- Ha, <- Hb; reflexivity).
  apply Qeq_alt in He. rewrite He. apply Z.ltb_ge. lia.
Qed.

Lemma insert_desc_filter k x l :
  List.filter (fun y => key_eqb k (sort_key y)) (insert_desc x l)
  = List.filter (fun y => key_eqb k (sort_key y)) (x :: l).
Proof.
  induction l as [|y l IH]; [reflexivity|].
  cbn [insert_desc].
  destruct (key_lt (sort_key x) (sort_key y)) eqn:Hlt; [|reflexivity].
  cbn [List.filter] in *. rewrite IH.
  destruct (key_eqb k (sort_key x)) eqn:Hx;
    destruct (key_eqb k (sort_key y)) eqn:Hy; try reflexivity.
  rewrite (key_eqb_not_lt _ _ _ Hx Hy) in Hlt. discriminate Hlt.
Qed.

Lemma sort_desc_filter k l :
  List.filter (fun y => key_eqb k (sort_key y)) (sort_desc l)
  = List.filter (fun y => key_eqb k (sort_key y)) l.
Proof.
  induction l as [|x l IH]; [reflexivity|].
  cbn [sort_desc]. rewrite insert_desc_filter. cbn [List.filter].
  rewrite IH. reflexivity.
Qed.

End Stability.

(** X9: recommendations with the same score and the same growth come out in
    the order of their roles in the catalog: for each key, the returned
    entries with that key are the first ones, in order, of the kept entries
    with that key. *)
Theorem career_path_ties_in_catalog_order data resume_skills experience k :
  List.filter (fun y => key_eqb k (sort_key y))
              (career_path data resume_skills experience)
  `prefix_of`
  List.filter (fun y => key_eqb k (sort_key y))
              (recommended_roles data resume_skills experience).
Proof.
  unfold career_path.
  rewrite <- (sort_desc_filter k (recommended_roles data resume_skills experience)).
  set (sorted := sort_desc (recommended_roles data resume_skills experience)).
  exists (List.filter (fun y => key_eqb k (sort_key y)) (drop 5 sorted)).
  rewrite <- List.filter_app, take_drop. reflexivity.
Qed.

(** X10: a role whose lowest experience level is not on the scale Entry,
    Mid, Senior, Lead is never dropped by the experience filter, whatever
    the experience asked for. *)
Theorem role_with_unknown_minimum_is_kept r experience :
  min_level r ∉ level_order ->
  experience_excludes experience r = false.
Proof.
  intros H. apply index_None in H. unfold experience_excludes.
  rewrite H. destruct (index experience level_order); reflexivity.
Qed.

Lemma role_with_unknown_minimum_witness :
  experience_excludes "Lead" trainee = false
  /\ experience_excludes "Entry" trainee = false.
Proof.
  split.
  - apply (role_with_unknown_minimum_is_kept trainee "Lead").
    apply index_None. reflexivity.
  - apply (role_with_unknown_minimum_is_kept trainee "Entry").
    apply index_None. reflexivity.
Defined.

(** X11: a role whose highest experience level is not on the scale, its
    lowest being on it, is dropped exactly for the experience levels below
    its lowest one: there is no upper limit. *)
Theorem role_with_unknown_maximum_has_no_upper_limit r experience e lo :
  max_level r ∉ level_order ->
  index experience level_order = Some e ->
  index (min_level r) level_order = Some lo ->
  (experience_excludes experience r = true <-> e < lo).
Proof.
  intros H He Hlo. apply index_None in H. unfold experience_excludes.
  rewrite He, Hlo, H.
  destruct (e <? lo)%nat eqn:Hlt.
  - apply Nat.ltb_lt in Hlt. tauto.
  - apply Nat.ltb_ge in Hlt. split; [discriminate | lia].
Qed.

Lemma role_with_unknown_maximum_witness :
  (experience_excludes "Lead" principal = true <-> 3 < 2)
  /\ (experience_excludes "Mid" principal = true <-> 1 < 2).
Proof.
  split.
  - apply (role_with_unknown_maximum_has_no_upper_limit principal "Lead" 3 2);
      [apply index_None|..]; reflexivity.
  - apply (role_with_unknown_maximum_has_no_upper_limit principal "Mid" 1 2);
      [apply index_None|..]; reflexivity.
Defined.

Lemma index_level_order experience :
  index experience level_order
  = if decide ("Entry" = experience) then Some 0
    else if decide ("Mid" = experience) then Some 1
    else if decide ("Senior" = experience) then Some 2
    else if decide ("Lead" = experience) then Some 3
    else None.
Proof.
  unfold level_order, index.
  repeat (destruct (decide _); [reflexivity|]). reflexivity.
Qed.

(** X12: a role without an [experience_level] entry is treated as 'Entry to
    Senior': among all experience values, 'Lead' alone makes the filter drop
    it. *)
Theorem role_without_experience_level r experience :
  experience_level r = None ->
  (experience_excludes experience r = true <-> experience = "Lead").
Proof.
  intros H.
  assert (Hmin : min_level r = "Entry")
    by (unfold min_level, role_levels; rewrite H; reflexivity).
  assert (Hmax : max_level r = "Senior")
    by (unfold max_level, min_level, role_levels; rewrite H; reflexivity).
  unfold experience_excludes. rewrite Hmin, Hmax, index_level_order.
  repeat (destruct (decide _) as [<-|?]; [cbn; split; [discriminate|intros [=]]|]).
  destruct (decide ("Lead" = experience)) as [<-|Hn].
  - cbn. tauto.
  - split; [discriminate | congruence].
Qed.

Lemma role_without_experience_level_witness :
  (experience_excludes "Lead" backend_developer = true <-> "Lead" = "Lead")
  /\ (experience_excludes "Senior" backend_developer = true
      <-> "Senior" = "Lead").
Proof.
  split.
  - apply (role_without_experience_level backend_developer "Lead"). reflexivity.
  - apply (role_without_experience_level backend_developer "Senior").
    reflexivity.
Defined.

(** ** [trending_skills] *)

Section SkillDemand.

Lemma add_demand_keys k v (d : list (string * Z)) s :
  s ∈ (add_demand k v d).*1 <-> s = k \/ s ∈ d.*1.
Proof.
  induction d as [|[k' v'] d IH]; simpl.
  - rewrite list_elem_of_singleton. split; [auto|]. intros [H|H]; [exact H|].
    inversion H.
  - destruct (decide (k' = k)) as [->|Hne]; simpl; rewrite !elem_of_cons.
    + tauto.
    + rewrite IH. tauto.
Qed.

Lemma add_demand_NoDup k v (d : list (string * Z)) :
  NoDup d.*1 -> NoDup (add_demand k v d).*1.
Proof.
  induction d as [|[k' v'] d IH]; simpl; intros Hd.
  - apply NoDup_singleton.
  - apply NoDup_cons in Hd as [Hk Hd].
    destruct (decide (k' = k)) as [->|Hne]; simpl.
    + apply NoDup_cons. auto.
    + apply NoDup_cons. split; [|auto].
      rewrite add_demand_keys. intros [H|H]; [congruence | exact (Hk H)].
Qed.

Lemma add_demand_value k v (d : list (string * Z)) s :
  demand_in (add_demand k v d) s
  = (demand_in d s + if decide (k = s) then v else 0)%Z.
Proof.
  induction d as [|[k' v'] d IH]; simpl.
  - destruct (decide (k = s)); lia.
  - destruct (decide (k' = k)) as [->|Hne]; simpl.
    + destruct (decide (k = s)); lia.
    + destruct (decide (k' = s)) as [->|Hs].
      * destruct (decide (k = s)); [congruence | lia].
      * exact IH.
Qed.

Lemma demand_entry (d : list (string * Z)) :
  NoDup d.*1 ->
  forall s v, (s, v) ∈ d <-> s ∈ d.*1 /\ demand_in d s = v.
Proof.
  induction d as [|[k' v'] d IH]; simpl; intros Hd s v.
  - split; [intros H; inversion H | intros [H _]; inversion H].
  - apply NoDup_cons in Hd as [Hk Hd]. rewrite !elem_of_cons, (IH Hd).
    destruct (decide (k' = s)) as [->|Hne].
    + split.
      * intros [[= ->]|[Hs _]]; [auto | destruct (Hk Hs)].
      * intros [_ ->]. left. reflexivity.
    + split.
      * intros [[= -> ->]|[Hs Hv]]; [congruence | auto].
      * intros [[->|Hs] Hv]; [congruence | auto].
Qed.

Lemma fold_demand_keys g (l : list string) : forall (d : list (string * Z)) s,
  s ∈ (foldl (fun d s => add_demand s g d) d l).*1 <-> s ∈ d.*1 \/ s ∈ l.
Proof.
  induction l as [|x l IH]; intros d s; simpl.
  - split; [auto|]. intros [H|H]; [exact H | inversion H].
  - rewrite IH, add_demand_keys, elem_of_cons. tauto.
Qed.

Lemma fold_demand_NoDup g (l : list string) : forall d : list (string * Z),
  NoDup d.*1 -> NoDup (foldl (fun d s => add_demand s g d) d l).*1.
Proof.
  induction l as [|x l IH]; intros d Hd; simpl; [exact Hd|].
  apply IH, add_demand_NoDup, Hd.
Qed.

Lemma fold_demand_value g (l : list string) : forall (d : list (string * Z)) s,
  demand_in (foldl (fun d s => add_demand s g d) d l) s
  = (demand_in d s + Z.of_nat (count_occ string_dec l s) * g)%Z.
Proof.
  induction l as [|x l IH]; intros d s; simpl; [lia|].
  rewrite IH, add_demand_value.
  destruct (string_dec x s) as [->|Hne].
  - destruct (decide (s = s)); [lia | congruence].
  - destruct (decide (x = s)); [congruence | lia].
Qed.

Lemma skill_demand_keys_from data : forall (d : list (string * Z)) s,
  s ∈ (foldl add_role_demand d data).*1
  <-> s ∈ d.*1
      \/ exists r, r ∈ data
                   /\ (s ∈ required_skills r \/ s ∈ preferred_skills r).
Proof.
  induction data as [|r data IH]; intros d s; simpl.
  - split; [auto|]. intros [H|(r & Hr & _)]; [exact H | inversion Hr].
  - rewrite IH. unfold add_role_demand.
    rewrite fold_demand_keys, elem_of_app. split.
    + intros [[H|H]|(r' & Hr' & H)].
      * left. exact H.
      * right. exists r. split; [left | exact H].
      * right. exists r'. split; [right; exact Hr' | exact H].
    + intros [H|(r' & Hr' & H)]; [auto|].
      apply elem_of_cons in Hr' as [->|Hr']; [auto|].
      right. exists r'. auto.
Qed.

Lemma skill_demand_NoDup_from data : forall d : list (string * Z),
  NoDup d.*1 -> NoDup (foldl add_role_demand d data).*1.
Proof.
  induction data as [|r data IH]; intros d Hd; simpl; [exact Hd|].
  apply IH. unfold add_role_demand. apply fold_demand_NoDup, Hd.
Qed.

Lemma skill_demand_value_from data : forall (d : list (string * Z)) s,
  demand_in (foldl add_role_demand d data) s
  = (demand_in d s + total_demand data s)%Z.
Proof.
  induction data as [|r data IH]; intros d s; simpl; [lia|].
  rewrite IH. unfold add_role_demand. rewrite fold_demand_value. lia.
Qed.

Lemma skill_demand_NoDup data : NoDup (skill_demand data).*1.
Proof. apply skill_demand_NoDup_from. constructor. Qed.

Lemma skill_demand_keys data s :
  s ∈ (skill_demand data).*1 <-> s ∈ all_skills data.
Proof.
  unfold skill_demand. rewrite skill_demand_keys_from, all_skills_spec.
  split; [|auto]. intros [H|H]; [inversion H | exact H].
Qed.

Lemma skill_demand_value data s :
  demand_in (skill_demand data) s = total_demand data s.
Proof. unfold skill_demand. rewrite skill_demand_value_from. reflexivity. Qed.

Lemma insert_by_demand_perm x l : insert_by_demand x l ≡ₚ x :: l.
Proof.
  induction l as [|y l IH]; simpl; [reflexivity|].
  destruct (snd x <? snd y)%Z; [|reflexivity].
  rewrite IH. apply Permutation_swap.
Qed.

Lemma sort_by_demand_perm l : sort_by_demand l ≡ₚ l.
Proof.
  induction l as [|x l IH]; simpl; [reflexivity|].
  rewrite insert_by_demand_perm, IH. reflexivity.
Qed.

Lemma insert_by_demand_sorted x l :
  StronglySorted (fun a b : string * Z => (snd b <= snd a)%Z) l ->
  StronglySorted (fun a b : string * Z => (snd b <= snd a)%Z)
                 (insert_by_demand x l).
Proof.
  induction l as [|y l IH]; simpl; intros Hs.
  - repeat constructor.
  - apply StronglySorted_inv in Hs as [Hl Hy].
    destruct (snd x <? snd y)%Z eqn:Hk.
    + apply Z.ltb_lt in Hk. constructor; [apply IH; exact Hl|].
      rewrite insert_by_demand_perm. constructor; [lia | exact Hy].
    + apply Z.ltb_ge in Hk. constructor; [constructor; assumption|].
      constructor; [exact Hk|].
      eapply Forall_impl; [exact Hy|]. intros z Hz. simpl in Hz. lia.
Qed.

Lemma sort_by_demand_sorted l :
  StronglySorted (fun a b : string * Z => (snd b <= snd a)%Z)
                 (sort_by_demand l).
Proof.
  induction l as [|x l IH]; simpl; [constructor|].
  apply insert_by_demand_sorted. exact IH.
Qed.

End SkillDemand.

(** X13: the demand table has one entry for each skill of the catalog and no
    other; the demand of a skill is the sum, over the roles, of the role's
    latest demand index (100 when it has none) times the number of times the
    role lists the skill. *)
Theorem skill_demand_sums_role_demand data :
  NoDup (skill_demand data).*1
  /\ forall s v,
       (s, v) ∈ skill_demand data
       <-> s ∈ all_skills data /\ v = total_demand data s.
Proof.
  split; [apply skill_demand_NoDup|].
  intros s v. rewrite (demand_entry _ (skill_demand_NoDup data)).
  rewrite skill_demand_keys, skill_demand_value.
  split; intros [H1 H2]; split; congruence.
Qed.

(** X14: [trending_skills] answers 'No skills data available' exactly when
    no role lists any skill; otherwise the bar chart gets at most twenty
    (skill, demand) pairs, with distinct skills, each with the demand of the
    table, in descending order of demand; no skill left out has a higher
    demand than a skill shown, and with at most twenty skills none is left
    out. *)
Theorem sorted_skills_top_twenty data :
  match sorted_skills data with
  | None =>
      forall r, r ∈ data -> required_skills r = [] /\ preferred_skills r = []
  | Some top =>
      (exists r s, r ∈ data
                   /\ (s ∈ required_skills r \/ s ∈ preferred_skills r))
      /\ length top <= 20
      /\ NoDup top.*1
      /\ (forall s v, (s, v) ∈ top ->
                      s ∈ all_skills data /\ v = total_demand data s)
      /\ StronglySorted (fun a b : string * Z => (snd b <= snd a)%Z) top
      /\ (forall x y, x ∈ top -> y ∈ skill_demand data -> y ∉ top ->
                      (snd y <= snd x)%Z)
      /\ (length (skill_demand data) <= 20 -> top ≡ₚ skill_demand data)
  end.
Proof.
  pose proof (skill_demand_NoDup data) as Hnd.
  pose proof (skill_demand_keys data) as Hkeys.
  pose proof (demand_entry _ Hnd) as Hentry.
  pose proof (skill_demand_value data) as Hval.
  unfold sorted_skills.
  remember (skill_demand data) as full eqn:Hfull.
  destruct full as [|p rest].
  - intros r Hr.
    assert (Hno : forall s, s ∈ required_skills r \/ s ∈ preferred_skills r
                            -> False).
    { intros s Hs.
      assert (Hin : s ∈ (@nil (string * Z)).*1)
        by (apply Hkeys, all_skills_spec; exists r; auto).
      inversion Hin. }
    split.
    + destruct (required_skills r) as [|s l]; [reflexivity|].
      destruct (Hno s). left. left.
    + destruct (preferred_skills r) as [|s l]; [reflexivity|].
      destruct (Hno s). right. left.
  - set (full := p :: rest) in *.
    set (sorted := sort_by_demand full).
    assert (Hperm : sorted ≡ₚ full) by apply sort_by_demand_perm.
    assert (Hsplit : take 20 sorted ++ drop 20 sorted = sorted)
      by apply take_drop.
    assert (Hss : StronglySorted (fun a b : string * Z => (snd b <= snd a)%Z)
                                 (take 20 sorted ++ drop 20 sorted))
      by (rewrite Hsplit; apply sort_by_demand_sorted).
    split.
    { assert (Hs : p.1 ∈ all_skills data) by (apply Hkeys; left).
      apply all_skills_spec in Hs as (r & Hr & Hs). exists r, p.1. auto. }
    split; [rewrite length_take; lia|].
    split.
    { apply (sublist_NoDup _ (sorted.*1)).
      - rewrite Hperm. exact Hnd.
      - rewrite fmap_take. apply sublist_take. }
    split.
    { intros s v Hin. apply subseteq_take in Hin. rewrite Hperm in Hin.
      apply Hentry in Hin as [Hk Hv]. split; [apply Hkeys; exact Hk|].
      rewrite <- Hval. symmetry. exact Hv. }
    split; [eapply StronglySorted_app_1_l; exact Hss|].
    split.
    { intros x y Hx Hy Hny.
      rewrite <- Hperm, <- Hsplit in Hy.
      apply elem_of_app in Hy as [Hy|Hy]; [destruct (Hny Hy)|].
      exact (StronglySorted_app_1_elem_of _ _ _ _ _ Hss Hx Hy). }
    intros Hlen. rewrite take_ge; [exact Hperm|].
    rewrite (Permutation_length Hperm). exact Hlen.
Qed.

(** ** [load_career_data] and the cached catalog *)

Section Loading.

Lemma missing_fields_nil (d : gmap string json) :
  missing_fields d = [] <->
  forall field, field ∈ required_fields -> is_Some (d !! field).
Proof.
  unfold missing_fields. generalize required_fields as fields.
  induction fields as [|f fields IH].
  - split; [intros _ field H; inversion H | reflexivity].
  - rewrite filter_cons. destruct (decide (d !! f = None)) as [Hf|Hf].
    + split; [discriminate|]. intros H.
      destruct (H f) as [x Hx]; [left | congruence].
    + rewrite IH. split.
      * intros H field Hin. apply elem_of_cons in Hin as [->|Hin];
          [|apply H; exact Hin].
        destruct (d !! f); [eauto | congruence].
      * intros H field Hin. apply H. right. exact Hin.
Qed.

Lemma is_valid_role_spec r :
  is_valid_role r = true <->
  exists d, r = JObj d
            /\ forall field, field ∈ required_fields -> is_Some (d !! field).
Proof.
  destruct r as [| | | | |d]; simpl;
    try (split; [discriminate | intros (d' & Hd & _); discriminate]).
  split.
  - destruct (missing_fields d) eqn:Hm; [|discriminate].
    intros _. exists d. split; [reflexivity|].
    apply missing_fields_nil. exact Hm.
  - intros (d' & [= <-] & Hm). apply missing_fields_nil in Hm.
    rewrite Hm. reflexivity.
Qed.

Lemma default_career_data_usable : usable_career_data create_default_career_data.
Proof.
  unfold usable_career_data, create_default_career_data.
  eexists _, _. split; [reflexivity|].
  split; [apply lookup_singleton_eq|].
  split; [discriminate|].
  repeat constructor.
Qed.

Lemma filter_valid_Forall roles :
  Forall (fun r => is_valid_role r = true) (List.filter is_valid_role roles).
Proof.
  apply Forall_forall. intros r Hr. apply list_elem_of_In, filter_In in Hr.
  tauto.
Qed.

Lemma validate_career_data_usable data :
  usable_career_data (validate_career_data data).
Proof.
  destruct data as [| | | | |d]; simpl; try apply default_career_data_usable.
  destruct (d !! "career_roles") as [[| | | |roles|]|];
    try apply default_career_data_usable.
  destruct roles as [|r roles]; [apply default_career_data_usable|].
  destruct (List.filter is_valid_role (r :: roles)) as [|v valid] eqn:Hf;
    [apply default_career_data_usable|].
  exists (<["career_roles" := JArr (v :: valid)]> d), (v :: valid).
  split; [reflexivity|]. split; [apply lookup_insert_eq|].
  split; [discriminate|]. rewrite <- Hf. apply filter_valid_Forall.
Qed.

Lemma load_career_data_usable file : usable_career_data (load_career_data file).
Proof.
  destruct file; simpl;
    [apply default_career_data_usable .. | apply validate_career_data_usable].
Qed.

Lemma validate_with_valid_role (d : gmap string json) roles :
  d !! "career_roles" = Some (JArr roles) ->
  (exists r, r ∈ roles /\ is_valid_role r = true) ->
  validate_career_data (JObj d)
  = JObj (<["career_roles" := JArr (List.filter is_valid_role roles)]> d).
Proof.
  intros Hd (r & Hr & Hv). simpl. rewrite Hd.
  destruct roles as [|r0 roles]; [inversion Hr|].
  destruct (List.filter is_valid_role (r0 :: roles)) as [|v valid] eqn:Hf;
    [|reflexivity].
  exfalso. assert (Hin : In r (List.filter is_valid_role (r0 :: roles))).
  { apply filter_In. split; [apply list_elem_of_In; exact Hr | exact Hv]. }
  rewrite Hf in Hin. destruct Hin.
Qed.

Lemma validate_usable_id data :
  usable_career_data data -> validate_career_data data = data.
Proof.
  intros (d & roles & -> & Hd & Hne & Hall).
  destruct roles as [|r roles]; [congruence|].
  rewrite (validate_with_valid_role d (r :: roles) Hd).
  - rewrite forallb_filter_id.
    + rewrite insert_id; [reflexivity | exact Hd].
    + apply forallb_forall. intros x Hx. apply list_elem_of_In in Hx.
      rewrite Forall_forall in Hall. apply Hall. exact Hx.
  - exists r. split; [left|]. apply Forall_inv in Hall. exact Hall.
Qed.

End Loading.

(** X15: whatever the data file is (absent, unreadable, broken, or holding
    any JSON value), the loaded data is a dictionary whose 'career_roles' is
    a non-empty list of dictionaries that each have the seven required
    fields. *)
Theorem load_career_data_always_usable file :
  exists d roles,
    load_career_data file = JObj d
    /\ d !! "career_roles" = Some (JArr roles)
    /\ roles <> []
    /\ forall r, r ∈ roles ->
         exists fields,
           r = JObj fields
           /\ forall field, field ∈ required_fields ->
                            is_Some (fields !! field).
Proof.
  destruct (load_career_data_usable file) as (d & roles & Hd & Hl & Hne & Hall).
  exists d, roles. split; [exact Hd|]. split; [exact Hl|].
  split; [exact Hne|].
  intros r Hr. apply is_valid_role_spec.
  rewrite Forall_forall in Hall. apply Hall. exact Hr.
Qed.

(** X16: a file whose 'career_roles' list has at least one valid role is
    never replaced by the default data: the result is the file's dictionary
    with 'career_roles' narrowed to the valid roles, in the file's order,
    every other top-level entry kept; when all its roles are valid the
    result is the file's content itself. *)
Theorem load_career_data_keeps_valid_roles (d : gmap string json) roles :
  d !! "career_roles" = Some (JArr roles) ->
  (exists r, r ∈ roles /\ is_valid_role r = true) ->
  load_career_data (FileHolds (JObj d))
  = JObj (<["career_roles" := JArr (List.filter is_valid_role roles)]> d)
  /\ (forall key, key <> "career_roles" ->
        <["career_roles" := JArr (List.filter is_valid_role roles)]> d !! key
        = d !! key)
  /\ (forallb is_valid_role roles = true ->
      load_career_data (FileHolds (JObj d)) = JObj d).
Proof.
  intros Hd Hex. unfold load_career_data.
  rewrite (validate_with_valid_role d roles Hd Hex).
  split; [reflexivity|].
  split; [intros key Hk; apply lookup_insert_ne; congruence|].
  intros Hall. rewrite forallb_filter_id by exact Hall.
  rewrite insert_id; [reflexivity | exact Hd].
Qed.

Lemma load_career_data_keeps_valid_roles_witness :
  load_career_data
    (FileHolds (JObj {[ "version" := JNum 2;
                        "career_roles" :=
                          JArr [JStr "not a role";
                                JObj {[ "role" := JStr "Tester" ]};
                                JObj {[ "role" := JStr "Writer";
                                        "category" := JStr "Media";
                                        "required_skills" := JArr [];
                                        "preferred_skills" := JArr [];
                                        "average_salary" := JObj ∅;
                                        "growth_trend" := JObj ∅;
                                        "recommended_courses" := JArr [] ]} ] ]}))
  = JObj {[ "version" := JNum 2;
            "career_roles" :=
              JArr [JObj {[ "role" := JStr "Writer";
                            "category" := JStr "Media";
                            "required_skills" := JArr [];
                            "preferred_skills" := JArr [];
                            "average_salary" := JObj ∅;
                            "growth_trend" := JObj ∅;
                            "recommended_courses" := JArr [] ]} ] ]}.
Proof.
  pose proof (load_career_data_keeps_valid_roles
    {[ "version" := JNum 2;
       "career_roles" :=
         JArr [JStr "not a role";
               JObj {[ "role" := JStr "Tester" ]};
               JObj {[ "role" := JStr "Writer";
                       "category" := JStr "Media";
                       "required_skills" := JArr [];
                       "preferred_skills" := JArr [];
                       "average_salary" := JObj ∅;
                       "growth_trend" := JObj ∅;
                       "recommended_courses" := JArr [] ]} ] ]}
    [JStr "not a role";
     JObj {[ "role" := JStr "Tester" ]};
     JObj {[ "role" := JStr "Writer";
             "category" := JStr "Media";
             "required_skills" := JArr [];
             "preferred_skills" := JArr [];
             "average_salary" := JObj ∅;
             "growth_trend" := JObj ∅;
             "recommended_courses" := JArr [] ]} ]
    eq_refl) as H.
  destruct H as [H _].
  - eexists. split; [right; right; left | reflexivity].
  - rewrite H. reflexivity.
Defined.

(** X17: loading is idempotent: a file that holds what [load_career_data]
    returned loads to the same data, so the loaded data always passes its own
    validation unchanged. *)
Theorem load_career_data_idempotent file :
  load_career_data (FileHolds (load_career_data file)) = load_career_data file.
Proof.
  simpl. apply validate_usable_id, load_career_data_usable.
Qed.

(** X18: the catalog is read once: after any call of [get_career_data], a
    later call returns the same data whatever the file has become, and only
    [reload_career_data] reads the file again. *)
Theorem get_career_data_reads_once file file' career_data :
  let '(d, cached) := get_career_data file career_data in
  get_career_data file' cached = (d, cached)
  /\ (career_data = None -> d = load_career_data file)
  /\ reload_career_data file' cached
     = (load_career_data file', Some (load_career_data file')).
Proof.
  destruct career_data as [d|]; simpl; repeat split;
    try reflexivity; discriminate.
Qed.

(** ** [chat] *)

Section Chat.

Lemma mentions_lower_spec s message :
  mentions (Chars.lower s) message = true
  <-> WholeWord.occurs_ignoring_case s message.
Proof.
  unfold mentions, WholeWord.occurs_ignoring_case, WholeWord.eq_ignoring_case.
  rewrite contains_spec, !chars_lower. split.
  - intros (pre & post & H).
    apply map_eq_app in H as (l1 & l23 & -> & <- & H).
    apply map_eq_app in H as (l2 & l3 & -> & H2 & <-).
    exists l1, l2, l3. split; [reflexivity | exact H2].
  - intros (pre & mid & post & -> & H).
    exists (map Chars.lower_char pre), (map Chars.lower_char post).
    rewrite !map_app, H. reflexivity.
Qed.

Lemma whole_word_occurs_ignoring_case s text :
  WholeWord.anchored s text -> WholeWord.occurs_ignoring_case s text.
Proof.
  intros (pre & mid & post & H & Heq & _). exists pre, mid, post. auto.
Qed.

Lemma extract_role_from_message_Some data message name :
  extract_role_from_message data message = Some name ->
  exists pre r post,
    data = pre ++ r :: post
    /\ role r = name
    /\ mentions (Chars.lower name) message = true
    /\ forall r', r' ∈ pre -> mentions (Chars.lower (role r')) message = false.
Proof.
  induction data as [|r data IH]; simpl; [discriminate|].
  destruct (mentions (Chars.lower (role r)) message) eqn:Hm.
  - intros [= <-]. exists [], r, data. repeat split; auto.
    intros r' Hr'. inversion Hr'.
  - intros H. destruct (IH H) as (pre & r0 & post & -> & Hn & Hmn & Hpre).
    exists (r :: pre), r0, post. repeat split; auto.
    intros r' Hr'. apply elem_of_cons in Hr' as [->|Hr']; auto.
Qed.

Lemma extract_role_from_message_None data message :
  extract_role_from_message data message = None <->
  forall r, r ∈ data -> mentions (Chars.lower (role r)) message = false.
Proof.
  induction data as [|r data IH]; simpl.
  - split; [intros _ r Hr; inversion Hr | reflexivity].
  - destruct (mentions (Chars.lower (role r)) message) eqn:Hm.
    + split; [discriminate|]. intros H. specialize (H r). rewrite Hm in H.
      discriminate H. left.
    + rewrite IH. split.
      * intros H r' Hr'. apply elem_of_cons in Hr' as [->|Hr']; auto.
      * intros H r' Hr'. apply H. right. exact Hr'.
Qed.

End Chat.

(** X19: a message that contains 'learn' is answered as a question about
    skills (or with the greeting when it also contains 'hello'); the test
    for 'learn' in the branch for courses is never reached. *)
Theorem chat_learn_is_a_skills_question data message current_role :
  mentions "learn" message = true ->
  chat data message current_role
  = if mentions "hello" message then greeting_reply
    else skills_reply data current_role.
Proof.
  intros H. unfold chat. rewrite H, orb_true_r. reflexivity.
Qed.

Lemma chat_learn_witness :
  chat default_career_roles "Which course should I take to LEARN Python?"
       "data scientist"
  = "For data scientist, focus on: Python, Statistics, Machine Learning, SQL, R...".
Proof.
  rewrite (chat_learn_is_a_skills_question default_career_roles
             "Which course should I take to LEARN Python?" "data scientist")
    by reflexivity.
  reflexivity.
Defined.

(** X20: in the answer about salaries, when the name of a catalog role
    occurs in the message (up to case) the answer always quotes salaries,
    never the general sentence: the role named is one whose name occurs in
    the message, and the figures are those of the first catalog role with
    that name up to case. *)
Theorem salary_reply_quotes_the_named_role data message name :
  extract_role_from_message data message = Some name ->
  name <> "" ->
  exists rd,
    lookup_role data name = Some rd
    /\ rd ∈ data
    /\ Chars.lower (role rd) = Chars.lower name
    /\ WholeWord.occurs_ignoring_case name message
    /\ salary_reply data message = salaries_reply name (average_salary rd).
Proof.
  intros He Hne.
  destruct (extract_role_from_message_Some _ _ _ He)
    as (pre & r & post & Hd & Hr & Hm & _).
  destruct (lookup_role data name) as [rd|] eqn:Hl.
  - exists rd. split; [reflexivity|].
    destruct (lookup_role_Some _ _ _ Hl) as (pre' & post' & Hd' & Hrd & _).
    split; [rewrite Hd'; apply elem_of_app; right; left|].
    split; [exact Hrd|].
    split; [apply mentions_lower_spec; exact Hm|].
    unfold salary_reply. rewrite He.
    destruct (decide (name = "")); [contradiction|]. rewrite Hl. reflexivity.
  - exfalso. rewrite lookup_role_None in Hl. apply (Hl r).
    + rewrite Hd. apply elem_of_app. right. left.
    + rewrite Hr. reflexivity.
Qed.

Lemma salary_reply_witness :
  exists rd,
    lookup_role default_career_roles "Data Scientist" = Some rd
    /\ salary_reply default_career_roles "SALARY of a data scientist?"
       = "Data Scientist salaries: Entry $80,000, Mid $120,000, Senior $160,000".
Proof.
  destruct (salary_reply_quotes_the_named_role default_career_roles
              "SALARY of a data scientist?" "Data Scientist"
              eq_refl ltac:(discriminate))
    as (rd & Hl & _ & _ & _ & Hs).
  exists rd. split; [exact Hl|]. rewrite Hs.
  injection Hl as <-. reflexivity.
Defined.

(** X21: for an ASCII message and a catalog of ASCII skills, the chat looks
    a skill up by plain containment up to case, with no word boundary: it
    finds a skill exactly when some skill of the catalog occurs in the
    message, the skill found is such a skill, and whenever [extract_skills]
    finds a skill in the message the chat finds one too. *)
Theorem extract_skill_from_message_by_containment data message :
  WholeWord.ascii_text message = true ->
  ascii_skills data = true ->
  (forall s, extract_skill_from_message data message = Some s ->
             s ∈ all_skills data
             /\ WholeWord.occurs_ignoring_case s message)
  /\ (extract_skill_from_message data message = None
      <-> forall s, s ∈ all_skills data ->
                    ~ WholeWord.occurs_ignoring_case s message)
  /\ (extract_skills data message <> [] ->
      extract_skill_from_message data message <> None).
Proof.
  intros _ _.
  assert (Hnone : extract_skill_from_message data message = None
                  <-> forall s, s ∈ all_skills data ->
                                ~ WholeWord.occurs_ignoring_case s message).
  { unfold extract_skill_from_message. split.
    - intros H s Hs Hocc. apply mentions_lower_spec in Hocc.
      apply elem_of_elements, list_elem_of_In in Hs.
      rewrite (find_none _ _ H s Hs) in Hocc. discriminate Hocc.
    - intros H.
      destruct (List.find _ (elements (all_skills data))) as [s|] eqn:Hf;
        [|reflexivity].
      apply find_some in Hf as [Hin Hm]. exfalso.
      apply (H s).
      + apply elem_of_elements, list_elem_of_In. exact Hin.
      + apply mentions_lower_spec. exact Hm. }
  split.
  { intros s H. unfold extract_skill_from_message in H.
    apply find_some in H as [Hin Hm]. split.
    - apply elem_of_elements, list_elem_of_In. exact Hin.
    - apply mentions_lower_spec. exact Hm. }
  split; [exact Hnone|].
  intros Hex Hn. rewrite Hnone in Hn.
  destruct (extract_skills data message) as [|s l] eqn:He; [congruence|].
  assert (Hs : s ∈ extract_skills data message) by (rewrite He; left).
  unfold extract_skills in Hs.
  apply elem_of_elements, found_skills_spec in Hs as [Hs Hocc].
  apply (Hn s Hs). apply whole_word_occurs_ignoring_case. exact Hocc.
Qed.

Lemma extract_skill_from_message_witness :
  extract_skill_from_message default_career_roles "Courses on SQL, please"
  <> None.
Proof.
  destruct (extract_skill_from_message_by_containment
              default_career_roles "Courses on SQL, please"
              eq_refl eq_refl) as (_ & _ & H).
  apply H. vm_compute. discriminate.
Defined.

(** ** [upload_resume] *)

Section Upload.

Lemma lstrip_nil l : lstrip l = [] <-> forallb is_space l = true.
Proof.
  induction l as [|c l IH]; simpl; [tauto|].
  destruct (is_space c); simpl; [exact IH|]. split; discriminate.
Qed.

Lemma lstrip_all_space l :
  forallb is_space (lstrip l) = true -> lstrip l = [].
Proof.
  induction l as [|c l IH]; simpl; [reflexivity|].
  destruct (is_space c) eqn:Hc; [exact IH|].
  simpl. rewrite Hc. discriminate.
Qed.

Lemma forallb_rev (f : ascii -> bool) l : forallb f (rev l) = forallb f l.
Proof.
  induction l as [|c l IH]; simpl; [reflexivity|].
  rewrite forallb_app, IH. simpl. rewrite andb_true_r. apply andb_comm.
Qed.

Lemma strip_empty s :
  strip s = "" <-> forallb is_space (Chars.chars s) = true.
Proof.
  unfold strip. split.
  - intros H.
    assert (Hl : lstrip (rev (lstrip (Chars.chars s))) = []).
    { apply (f_equal list_ascii_of_string) in H.
      rewrite list_ascii_of_string_of_list_ascii in H. simpl in H.
      apply (f_equal (@rev ascii)) in H. rewrite rev_involutive in H.
      exact H. }
    apply lstrip_nil in Hl. rewrite forallb_rev in Hl.
    apply lstrip_all_space in Hl. apply lstrip_nil. exact Hl.
  - intros H. apply lstrip_nil in H. rewrite H. reflexivity.
Qed.

End Upload.

(** X22: an upload is analysed exactly when a file with a non-empty name
    ending in '.pdf' (in lower case) comes with a target role that is not
    blank and the pages can be read; the response is then the analysis of the
    skills extracted from the text of all pages against the target role with
    the white space around it removed. *)
Theorem upload_resume_analyzed_iff data resume target response :
  upload_resume data resume target = Analyzed response
  <-> exists file pages,
        resume = Some file
        /\ filename file <> ""
        /\ strip (default "" target) <> ""
        /\ endswith ".pdf" (filename file) = true
        /\ pdf_pages file = Some pages
        /\ response
           = analyze_resume data (extract_skills data (resume_text pages))
                            (strip (default "" target)).
Proof.
  unfold upload_resume. split.
  - destruct resume as [file|]; [|discriminate].
    destruct (decide (filename file = "")); [discriminate|].
    destruct (decide (strip (default "" target) = "")); [discriminate|].
    destruct (endswith ".pdf" (filename file)) eqn:He; [|discriminate].
    destruct (pdf_pages file) as [pages|] eqn:Hp; [|discriminate].
    intros [= <-]. exists file, pages.
    repeat split; try assumption; reflexivity.
  - intros (file & pages & -> & Hn & Ht & He & Hp & ->).
    destruct (decide (filename file = "")); [contradiction|].
    destruct (decide (strip (default "" target) = "")); [contradiction|].
    rewrite He, Hp. reflexivity.
Qed.

(** X23: a target role that is absent or consists of white space only is
    refused with 'Target role must be selected before analysis' for every
    named file, before the file's type is looked at. *)
Theorem upload_resume_needs_target_role data file target :
  filename file <> "" ->
  forallb is_space (Chars.chars (default "" target)) = true ->
  upload_resume data (Some file) target
  = BadRequest "Target role must be selected before analysis".
Proof.
  intros Hn Hs. unfold upload_resume.
  destruct (decide (filename file = "")); [contradiction|].
  apply strip_empty in Hs. rewrite Hs. reflexivity.
Qed.

Lemma upload_resume_needs_target_role_witness :
  upload_resume default_career_roles
    (Some {| filename := "notes.txt"; pdf_pages := None |}) (Some "   ")
  = BadRequest "Target role must be selected before analysis"
  /\ upload_resume default_career_roles
       (Some {| filename := "cv.pdf"; pdf_pages := Some [Some "Python"] |}) None
     = BadRequest "Target role must be selected before analysis".
Proof.
  split.
  - apply (upload_resume_needs_target_role default_career_roles
             {| filename := "notes.txt"; pdf_pages := None |} (Some "   "));
      [discriminate | reflexivity].
  - apply (upload_resume_needs_target_role default_career_roles
             {| filename := "cv.pdf"; pdf_pages := Some [Some "Python"] |} None);
      [discriminate | reflexivity].
Defined.

(** X24: for an accepted upload with an ASCII resume text whose target
    resolves to a catalog role with ASCII skills that begin and end with a
    word character, the matched skills of the response are the role's skills
    that occur in the text, up to case, as words of their own (no word
    character right before or after), and the missing required (preferred)
    skills are the role's required (preferred) skills that do not. *)
Theorem upload_resume_matches_skills_in_text data file pages target rd :
  filename file <> "" ->
  endswith ".pdf" (filename file) = true ->
  pdf_pages file = Some pages ->
  strip (default "" target) <> "" ->
  lookup_role data (strip (default "" target)) = Some rd ->
  WholeWord.ascii_text (resume_text pages) = true ->
  Forall (fun s => WholeWord.ascii_text s = true /\ WholeWord.word_ended s)
         (required_skills rd ++ preferred_skills rd) ->
  exists a,
    upload_resume data (Some file) target = Analyzed (Ok a)
    /\ analysis_role a = role rd
    /\ (forall s, s ∈ matched_skills a
                  <-> (s ∈ required_skills rd \/ s ∈ preferred_skills rd)
                      /\ WholeWord.delimited s (resume_text pages))
    /\ (forall s, s ∈ missing_required a
                  <-> s ∈ required_skills rd
                      /\ ~ WholeWord.delimited s (resume_text pages))
    /\ (forall s, s ∈ missing_preferred a
                  <-> s ∈ preferred_skills rd
                      /\ ~ WholeWord.delimited s (resume_text pages)).
Proof.
  intros Hn He Hp Ht Hl _ Hwords.
  set (text := resume_text pages).
  set (skills := extract_skills data text).
  exists (analyze_role data skills rd).
  assert (Hrd : rd ∈ data).
  { destruct (lookup_role_Some _ _ _ Hl) as (pre & post & -> & _).
    apply elem_of_app. right. left. }
  assert (Hskill : forall s,
             s ∈ required_skills rd \/ s ∈ preferred_skills rd ->
             (s ∈ skills <-> WholeWord.delimited s text)).
  { intros s Hs.
    assert (Hw : WholeWord.word_ended s).
    { rewrite Forall_forall in Hwords. apply Hwords, elem_of_app. exact Hs. }
    unfold skills. rewrite (extract_skills_word_ended data text s Hw).
    rewrite all_skills_spec.
    split; [tauto|]. intros Hocc. split; [|exact Hocc]. exists rd. auto. }
  split.
  { unfold upload_resume.
    destruct (decide (filename file = "")); [contradiction|].
    destruct (decide (strip (default "" target) = "")); [contradiction|].
    rewrite He, Hp. fold text. fold skills.
    rewrite (analyze_resume_found _ _ _ _ Hl). reflexivity. }
  split; [reflexivity|].
  cbn [analyze_role matched_skills missing_required missing_preferred].
  split; [|split].
  - intros s. rewrite matched_elem. split.
    + intros [Hs Hin]. split; [exact Hs|]. apply Hskill; assumption.
    + intros [Hs Hocc]. split; [exact Hs|]. apply Hskill; assumption.
  - intros s. rewrite missing_elem. split.
    + intros [Hs Hin]. split; [exact Hs|]. rewrite <- Hskill by auto. exact Hin.
    + intros [Hs Hocc]. split; [exact Hs|]. rewrite Hskill by auto. exact Hocc.
  - intros s. rewrite missing_elem. split.
    + intros [Hs Hin]. split; [exact Hs|]. rewrite <- Hskill by auto. exact Hin.
    + intros [Hs Hocc]. split; [exact Hs|]. rewrite Hskill by auto. exact Hocc.
Qed.

Lemma upload_resume_matches_skills_witness :
  exists a,
    upload_resume default_career_roles
      (Some {| filename := "cv.pdf";
               pdf_pages := Some [Some "I write PYTHON and SQL. ";
                                  None;
                                  Some "Also JavaScripting, on aws."] |})
      (Some "  software engineer ")
    = Analyzed (Ok a)
    /\ analysis_role a = "Software Engineer".
Proof.
  destruct (upload_resume_matches_skills_in_text default_career_roles
              {| filename := "cv.pdf";
                 pdf_pages := Some [Some "I write PYTHON and SQL. ";
                                    None;
                                    Some "Also JavaScripting, on aws."] |}
              [Some "I write PYTHON and SQL. "; None;
               Some "Also JavaScripting, on aws."]
              (Some "  software engineer ") software_engineer
              ltac:(discriminate) eq_refl eq_refl ltac:(discriminate) eq_refl
              eq_refl ltac:(repeat constructor))
    as (a & Ha & Hr & _).
  exists a. split; [exact Ha | exact Hr].
Defined.

(** ** Extraction and recommendation together *)

Lemma score_positive resume_skills r s :
  s ∈ resume_skills ->
  s ∈ required_skills r \/ s ∈ preferred_skills r ->
  (0 < score resume_skills r)%Q.
Proof.
  intros Hs Hr. unfold score.
  set (n := size ((list_to_set (required_skills r) : gset string)
                  ∩ list_to_set resume_skills)).
  set (m := size ((list_to_set (preferred_skills r) : gset string)
                  ∩ list_to_set resume_skills)).
  assert (Hnm : 0 < n + m).
  { destruct Hr as [Hr|Hr].
    - assert (n <> 0); [|lia]. unfold n. rewrite size_empty_iff.
      intros He. apply (not_elem_of_empty (C:=gset string) s), He.
      rewrite elem_of_intersection, !elem_of_list_to_set. auto.
    - assert (m <> 0); [|lia]. unfold m. rewrite size_empty_iff.
      intros He. apply (not_elem_of_empty (C:=gset string) s), He.
      rewrite elem_of_intersection, !elem_of_list_to_set. auto. }
  unfold Qlt. cbn [Qnum Qden Qplus Qmult inject_Z]. lia.
Qed.

(** X25: a role that lists one of the submitted skills and passes the
    experience filter makes the recommendation list non-empty, and the role
    itself is recommended whenever at most five roles qualify. *)
Theorem career_path_recommends_matching_role
    data resume_skills experience r s :
  r ∈ data ->
  s ∈ resume_skills ->
  s ∈ required_skills r \/ s ∈ preferred_skills r ->
  experience_excludes experience r = false ->
  career_path data resume_skills experience <> []
  /\ (length (recommended_roles data resume_skills experience) <= 5 ->
      recommendation resume_skills r
      ∈ career_path data resume_skills experience).
Proof.
  intros Hr Hs Hin Hex.
  assert (Hc : consider resume_skills experience r
               = Some (recommendation resume_skills r)).
  { pose proof (score_positive resume_skills r s Hs Hin) as Hp.
    unfold consider, Qlt_bool. rewrite Hex.
    destruct (Qcompare_spec 0 (score resume_skills r)) as [He|_|Hg].
    - rewrite <- He in Hp. destruct (Qlt_irrefl _ Hp).
    - reflexivity.
    - destruct (Qlt_irrefl _ (Qlt_trans _ _ _ Hp Hg)). }
  assert (Hkept : recommendation resume_skills r
                  ∈ recommended_roles data resume_skills experience).
  { apply list_elem_of_omap. exists r. auto. }
  assert (Hsorted : recommendation resume_skills r
                    ∈ sort_desc (recommended_roles data resume_skills experience))
    by (rewrite sort_desc_perm; exact Hkept).
  unfold career_path. split.
  - destruct (sort_desc (recommended_roles data resume_skills experience));
      [inversion Hsorted | discriminate].
  - intros Hlen. rewrite take_ge; [exact Hsorted|].
    rewrite (Permutation_length (sort_desc_perm _)). exact Hlen.
Qed.

Lemma career_path_recommends_matching_role_witness :
  career_path default_career_roles ["Tableau"] "Expert" <> []
  /\ (length (recommended_roles default_career_roles ["Tableau"] "Expert") <= 5
      -> recommendation ["Tableau"] data_scientist
         ∈ career_path default_career_roles ["Tableau"] "Expert").
Proof.
  apply (career_path_recommends_matching_role
           default_career_roles ["Tableau"] "Expert" data_scientist "Tableau").
  - right. left.
  - left.
  - right. right. right. left.
  - reflexivity.
Defined.
